(** * Moon data classification notebook: evaluation, endpoint teardown, CSV stub

    A shallow embedding of the three functions the notebook
    [Moon_Data/Moon_Classification_Exercise.ipynb] defines
    ([make_csv], [evaluate], [delete_endpoint]) together with the parts of
    numpy, the file system and the remote service they touch, and the
    properties of these functions. *)

From Stdlib Require Import QArith Qround Ascii Lqa.
From stdpp Require Import gmap strings list fin_maps.

Close Scope Q_scope.
Open Scope Z_scope.

(** ** Numbers as numpy has them *)

(** A [float64] array element.  [Finite q] stands for the binary64 number
    nearest to the rational [q]; the values the embedding tests ([np_round]
    results, [1 - x] on them, comparisons with zero) are exact in binary64,
    and a quotient of two counts is kept as the reduced fraction it
    denotes. *)
Inductive float64 : Type :=
  | Finite (q : Q)
  | NaN
  | Inf (negative : bool).

(** The value of an [int64] after wrap-around. *)
Definition wrap64 (z : Z) : Z := (z + 2 ^ 63) mod 2 ^ 64 - 2 ^ 63.

(** [np.round] on one element: to the nearest integer, ties to the even one;
    [nan] and the infinities are returned as they are. *)
Definition round_half_even (q : Q) : Z :=
  let f := Qfloor q in
  match (q - inject_Z f ?= 1 # 2)%Q with
  | Lt => f
  | Gt => f + 1
  | Eq => if Z.even f then f else f + 1
  end.

Definition np_round (x : float64) : float64 :=
  match x with
  | Finite q => Finite (inject_Z (round_half_even q))
  | NaN => NaN
  | Inf s => Inf s
  end.

(** What [np.logical_and] and [1 - a] need of an element type: its truth
    value (non-zero) and the subtraction from one. *)
Class NpScalar (A : Type) : Type := {
  nonzero : A → bool;
  one_minus : A → A
}.

#[export] Instance int64_scalar : NpScalar Z := {|
  nonzero z := negb (z =? 0);
  one_minus z := wrap64 (1 - z)
|}.

#[export] Instance float64_scalar : NpScalar float64 := {|
  nonzero x := match x with Finite q => negb (Qeq_bool q 0) | _ => true end;
  one_minus x :=
    match x with
    | Finite q => Finite (1 - q)
    | NaN => NaN
    | Inf s => Inf (negb s)
    end
|}.

(** ** Exceptions and results *)

Inductive exn : Type :=
  | ValueError
  | FileNotFoundError
  | FileExistsError
  | NotADirectoryError
  | ClientError
  | EndpointConnectionError.

Inductive outcome (A : Type) : Type :=
  | Returned (a : A)
  | Raised (e : exn).
Arguments Returned {A} a.
Arguments Raised {A} e.

#[export] Instance outcome_ret : MRet outcome := λ A a, Returned a.

#[export] Instance outcome_bind : MBind outcome := λ A B k o,
  match o with
  | Returned a => k a
  | Raised e => Raised e
  end.

(** ** numpy array operations (one-dimensional arrays as lists) *)

(** Two shapes [(n,)] and [(m,)] broadcast when [n = m] or one of them is 1
    (a squeezed one-element array is a scalar and broadcasts the same way);
    otherwise numpy raises [ValueError]. *)
Definition broadcast {A B C : Type} (f : A → B → C) (a : list A) (b : list B)
    : outcome (list C) :=
  if (length a =? length b)%nat then Returned (zip_with f a b)
  else match a, b with
       | [x], _ => Returned (f x <$> b)
       | _, [y] => Returned ((λ x, f x y) <$> a)
       | _, _ => Raised ValueError
       end.

Definition np_logical_and {A B : Type} `{NpScalar A, NpScalar B}
    (a : list A) (b : list B) : outcome (list bool) :=
  broadcast (λ x y, nonzero x && nonzero y) a b.

(** [1 - a], elementwise. *)
Definition np_rsub1 {A : Type} `{NpScalar A} (a : list A) : list A :=
  one_minus <$> a.

(** [.sum()] of a boolean array: the number of [True] entries, an [int64]. *)
Fixpoint np_sum (bs : list bool) : Z :=
  match bs with
  | [] => 0
  | b :: bs' => Z.b2z b + np_sum bs'
  end.

(** [a / b] on two numpy [int64] scalars: true division into a [float64];
    a zero divisor gives [nan] or an infinity (with a warning), never an
    exception. *)
Definition np_true_divide (a b : Z) : float64 :=
  if b =? 0 then
    (if a =? 0 then NaN else Inf (a <? 0))
  else Finite (Qred (inject_Z a / inject_Z b)).

(** [np.squeeze] on the predictions: the unit axes are dropped, the elements
    stay in order. *)
Definition np_squeeze (a : list float64) : list float64 := a.

(** ** The world outside the notebook *)

(** The file tree below the working directory.  Paths are taken relative to
    it, without [..] components or symbolic links. *)
#[warnings="-register-all"] Inductive node : Type :=
  | File (content : string)
  | Dir (entries : gmap string node).

(** What one [print] call wrote.  The cross table and the formatted metric
    lines are kept as the arguments they were rendered from. *)
Inductive printed : Type :=
  | Text (s : string)
  | Crosstab (index : list Z) (columns : list float64)
             (rownames colnames : list string)
  | Formatted (template label : string) (value : float64)
  | EmptyLine.

Inductive api_call : Type :=
  | DeleteEndpoint (EndpointName : string).

(** [pending_faults] is what the transport will do to the coming remote
    calls, one entry per call: [Some e] makes that call raise [e] before it
    reaches the service. *)
Record world : Type := World {
  files : node;
  stdout : list printed;
  endpoints : gset string;
  api_log : list api_call;
  pending_faults : list (option exn)
}.

(** ** Python computations: state and exceptions *)

Definition py (A : Type) : Type := world → outcome A * world.

#[export] Instance py_ret : MRet py := λ A a w, (Returned a, w).

#[export] Instance py_bind : MBind py := λ A B k m w,
  match m w with
  | (Returned a, w') => k a w'
  | (Raised e, w') => (Raised e, w')
  end.

(** A pure numpy call that may raise. *)
Definition lift {A : Type} (o : outcome A) : py A := λ w, (o, w).

(** [try: body / except: handler] with a bare [except]. *)
Definition try_except {A : Type} (body : py A) (handler : exn → py A) : py A :=
  λ w, match body w with
       | (Returned a, w') => (Returned a, w')
       | (Raised e, w') => handler e w'
       end.

(** The world after some more output. *)
Definition with_stdout (w : world) (extra : list printed) : world :=
  {| files := files w; stdout := stdout w ++ extra; endpoints := endpoints w;
     api_log := api_log w; pending_faults := pending_faults w |}.

(** [print(p)]: writing to the output, and formatting a number for it
    ([str.format]), is taken not to raise. *)
Definition print (p : printed) : py () := λ w, (Returned (), with_stdout w [p]).

(** [pd.crosstab(index, columns, rownames=..., colnames=...)]: the two
    arrays become the columns of one frame.  A squeezed single prediction
    is a scalar, which fills its column; two arrays of different lengths
    are a [ValueError]. *)
Definition pd_crosstab (index : list Z) (columns : list float64)
    (rownames colnames : list string) : outcome printed :=
  if (length columns =? 1)%nat || (length index =? length columns)%nat
  then Returned (Crosstab index columns rownames colnames)
  else Raised ValueError.

(** ** os.path and os.makedirs *)

(** [p.split('/')] *)
Fixpoint path_split (p : string) : list string :=
  match p with
  | EmptyString => [EmptyString]
  | String c p' =>
      if Ascii.eqb c "/"%char then EmptyString :: path_split p'
      else match path_split p' with
           | [] => [String c EmptyString]
           | w :: ws => String c w :: ws
           end
  end.

(** The names a path walks through: an empty component or [.] is no
    step. *)
Definition components (p : string) : list string :=
  filter (λ c, c ≠ EmptyString ∧ c ≠ ".") (path_split p).

Fixpoint lookup_path (cs : list string) (t : node) : option node :=
  match cs with
  | [] => Some t
  | c :: cs' =>
      match t with
      | File _ => None
      | Dir es => es !! c ≫= lookup_path cs'
      end
  end.

(** A chain of new, otherwise empty directories. *)
Fixpoint fresh_dirs (cs : list string) : node :=
  match cs with
  | [] => Dir ∅
  | c :: cs' => Dir {[c := fresh_dirs cs']}
  end.

(** [mkdir -p] that insists on creating the last directory: an existing
    target is [FileExistsError], a file on the way [NotADirectoryError]. *)
Fixpoint mkdirs (cs : list string) (t : node) : outcome node :=
  match cs with
  | [] => Raised FileExistsError
  | c :: cs' =>
      match t with
      | File _ => Raised NotADirectoryError
      | Dir es =>
          match es !! c with
          | None => Returned (Dir (<[c := fresh_dirs cs']> es))
          | Some child =>
              match mkdirs cs' child with
              | Returned child' => Returned (Dir (<[c := child']> es))
              | Raised e => Raised e
              end
          end
      end
  end.

(** The path ends in a name: nothing, neither a [/] nor a [.], follows its
    last name.  Only such a path can name a file. *)
Definition ends_in_name (p : string) : bool :=
  match last (path_split p) with
  | Some c => bool_decide (c ≠ EmptyString ∧ c ≠ ".")
  | None => false
  end.

(** A [.] is the last step of the path, after its last name. *)
Definition ends_in_dot (p : string) : bool :=
  bool_decide (last (filter (λ c, c ≠ EmptyString) (path_split p)) = Some ".").

(** [os.path.exists(p)]: the empty path names nothing, and a path that goes
    on after its last name ([notes.txt/], [notes.txt/.]) names a directory
    or nothing. *)
Definition os_path_exists (p : string) : py bool := λ w,
  (Returned (if decide (p = EmptyString) then false
             else match lookup_path (components p) (files w) with
                  | Some (Dir _) => true
                  | Some (File _) => ends_in_name p
                  | None => false
                  end),
   w).

(** [os.makedirs(p)]: the empty path is [FileNotFoundError]; on a file that
    is there, a path with a [.] after the name is [NotADirectoryError]
    where the name alone is [FileExistsError]. *)
Definition os_makedirs (p : string) : py () := λ w,
  if decide (p = EmptyString) then (Raised FileNotFoundError, w)
  else match mkdirs (components p) (files w) with
       | Returned t =>
           (Returned (),
            {| files := t; stdout := stdout w; endpoints := endpoints w;
               api_log := api_log w; pending_faults := pending_faults w |})
       | Raised e =>
           (Raised match lookup_path (components p) (files w) with
                   | Some (File _) =>
                       if ends_in_dot p then NotADirectoryError else e
                   | _ => e
                   end,
            w)
       end.

(** [open(p).read()], as a reader of the written file would call it. *)
Definition read_file (p : string) : py string := λ w,
  if decide (p = EmptyString) then (Raised FileNotFoundError, w)
  else match lookup_path (components p) (files w) with
       | Some (File content) => (Returned content, w)
       | _ => (Raised FileNotFoundError, w)
       end.

(** ** The remote service *)

(** [boto3.client('sagemaker').delete_endpoint(EndpointName=name)]: the call
    is logged; a transport fault raises before the service is reached;
    the service removes a known endpoint and answers an unknown one with
    [ClientError]. *)
Definition boto3_delete_endpoint (name : string) : py () := λ w,
  let log := api_log w ++ [DeleteEndpoint name] in
  match pending_faults w with
  | Some e :: later =>
      (Raised e,
       {| files := files w; stdout := stdout w; endpoints := endpoints w;
          api_log := log; pending_faults := later |})
  | faults =>
      let w' := {| files := files w; stdout := stdout w;
                   endpoints := endpoints w ∖ {[name]};
                   api_log := log; pending_faults := tail faults |} in
      if decide (name ∈ endpoints w) then (Returned (), w')
      else (Raised ClientError, w')
  end.

(** ** The notebook's functions *)

Definition ndarray : Type := list (list float64).

(** A deployed predictor: the endpoint's name and what [predict] answers. *)
Record Predictor : Type := {
  endpoint : string;
  predict : ndarray → list float64
}.

Inductive pyval : Type :=
  | PyInt (z : Z)
  | PyFloat (x : float64).

Definition newline : string := String (ascii_of_nat 10) EmptyString.

(** [make_csv(x, y, filename, data_dir)] *)
Definition make_csv (x : ndarray) (y : list Z) (filename data_dir : string) : py () :=
  present ← os_path_exists data_dir;
  (if negb present then os_makedirs data_dir else mret ());;
  print (Text ((("Path created: " +:+ data_dir) +:+ "/") +:+ filename)).

(** [evaluate(predictor, test_features, test_labels, verbose)] *)
Definition evaluate (predictor : Predictor) (test_features : ndarray)
    (test_labels : list Z) (verbose : bool) : py (gmap string pyval) :=
  let test_preds := np_squeeze (np_round <$> predict predictor test_features) in
  tp_mask ← lift (np_logical_and test_labels test_preds);
  let tp := np_sum tp_mask in
  fp_mask ← lift (np_logical_and (np_rsub1 test_labels) test_preds);
  let fp := np_sum fp_mask in
  tn_mask ← lift (np_logical_and (np_rsub1 test_labels) (np_rsub1 test_preds));
  let tn := np_sum tn_mask in
  fn_mask ← lift (np_logical_and test_labels (np_rsub1 test_preds));
  let fn := np_sum fn_mask in
  let recall := np_true_divide tp (tp + fn) in
  let precision := np_true_divide tp (tp + fp) in
  let accuracy := np_true_divide (tp + tn) (tp + fp + tn + fn) in
  (if verbose then
     crosstab ← lift (pd_crosstab test_labels test_preds
                                  ["actuals"] ["predictions"]);
     print crosstab;;
     print (Formatted (newline +:+ "{:<11} {:.3f}") "Recall:" recall);;
     print (Formatted "{:<11} {:.3f}" "Precision:" precision);;
     print (Formatted "{:<11} {:.3f}" "Accuracy:" accuracy);;
     print EmptyLine
   else mret ());;
  mret (<["TP" := PyInt tp]> (<["FP" := PyInt fp]> (<["FN" := PyInt fn]>
       (<["TN" := PyInt tn]> (<["Precision" := PyFloat precision]>
       (<["Recall" := PyFloat recall]> (<["Accuracy" := PyFloat accuracy]> ∅))))))).

(** [delete_endpoint(predictor)] *)
Definition delete_endpoint (predictor : Predictor) : py () :=
  try_except
    (boto3_delete_endpoint (endpoint predictor);;
     print (Text ("Deleted " +:+ endpoint predictor)))
    (λ _, print (Text ("Already deleted: " +:+ endpoint predictor))).

(** ** Definitions for the statements *)

(** The number of positions where both arrays are non-zero, for arrays of
    one length. *)
Definition count_and {A B : Type} `{NpScalar A, NpScalar B}
    (a : list A) (b : list B) : Z :=
  np_sum (zip_with (λ x y, nonzero x && nonzero y) a b).

(** The dictionary [evaluate] builds from the four counts. *)
Definition report (tp fp tn fn : Z) : gmap string pyval :=
  <["TP" := PyInt tp]> (<["FP" := PyInt fp]> (<["FN" := PyInt fn]>
  (<["TN" := PyInt tn]>
  (<["Precision" := PyFloat (np_true_divide tp (tp + fp))]>
  (<["Recall" := PyFloat (np_true_divide tp (tp + fn))]>
  (<["Accuracy" := PyFloat (np_true_divide (tp + tn) (tp + fp + tn + fn))]>
   ∅)))))).

(** What the verbose branch prints. *)
Definition table (labels : list Z) (preds : list float64) (tp fp tn fn : Z)
    : list printed :=
  [ Crosstab labels preds ["actuals"] ["predictions"];
    Formatted (newline +:+ "{:<11} {:.3f}") "Recall:" (np_true_divide tp (tp + fn));
    Formatted "{:<11} {:.3f}" "Precision:" (np_true_divide tp (tp + fp));
    Formatted "{:<11} {:.3f}" "Accuracy:"
      (np_true_divide (tp + tn) (tp + fp + tn + fn));
    EmptyLine ].

(** The rounded predictions [evaluate] works on. *)
Definition rounded (p : Predictor) (X : ndarray) : list float64 :=
  np_round <$> predict p X.

Definition is_label (l : Z) : Prop := l = 0 ∨ l = 1.

Definition is_bit (x : float64) : Prop := x = Finite 0 ∨ x = Finite 1.

(** The scores [np.round] sends to 0 or 1: the finite ones from -0.5 up to,
    not including, 1.5.  Every sigmoid output, a number of [0, 1], is one. *)
Definition in_rounding_range (x : float64) : Prop :=
  match x with
  | Finite q => (- (1 # 2) <= q ∧ q < 3 # 2)%Q
  | _ => False
  end.

Definition label_as_float (l : Z) : float64 := Finite (inject_Z l).

(** The other class, as a rounded prediction. *)
Definition opposite_label (l : Z) : float64 := label_as_float (1 - l).

(** The number of labels equal to [v]. *)
Definition occurrences (v : Z) (labels : list Z) : Z :=
  np_sum ((λ l, l =? v) <$> labels).

(** The four masks and their sums, in the order [evaluate] takes them. *)
Definition confusion (labels : list Z) (preds : list float64)
    : outcome (Z * Z * Z * Z) :=
  tp ← np_logical_and labels preds;
  fp ← np_logical_and (np_rsub1 labels) preds;
  tn ← np_logical_and (np_rsub1 labels) (np_rsub1 preds);
  fn ← np_logical_and labels (np_rsub1 preds);
  mret (np_sum tp, np_sum fp, np_sum tn, np_sum fn).

(** The counts as the specification words them. *)

(** [x] is the number [v]. *)
Definition equals (v : Z) (x : float64) : bool :=
  match x with
  | Finite q => Qeq_bool q (inject_Z v)
  | _ => false
  end.

(** The number of positions where the label is [lv] and the rounded
    prediction is [pv]. *)
Definition positions (lv pv : Z) (labels : list Z) (preds : list float64) : Z :=
  Z.of_nat (length (List.filter (λ lp : Z * float64, (lp.1 =? lv) && equals pv lp.2)
                                (zip labels preds))).

Definition spec_TP : list Z → list float64 → Z := positions 1 1.
Definition spec_FP : list Z → list float64 → Z := positions 0 1.
Definition spec_TN : list Z → list float64 → Z := positions 0 0.
Definition spec_FN : list Z → list float64 → Z := positions 1 0.

(** How a node at one path may differ after directories were created along
    [cs]: a file stays the file it was, a directory stays a directory, and
    where there was nothing there is still nothing or a new directory on
    the way to [cs]. *)
Definition grown_along (cs q : list string) (before after : option node) : Prop :=
  match before with
  | Some (File content) => after = Some (File content)
  | Some (Dir _) => ∃ es, after = Some (Dir es)
  | None => after = None ∨ (q `prefix_of` cs ∧ ∃ es, after = Some (Dir es))
  end.

(** Sample inputs. *)

Definition empty_world : world :=
  {| files := Dir ∅; stdout := []; endpoints := ∅; api_log := [];
     pending_faults := [] |}.

(** A predictor that answers the given scores whatever it is asked. *)
Definition answering (name : string) (scores : list float64) : Predictor :=
  {| endpoint := name; predict := λ _, scores |}.

Definition moon_scores : list float64 :=
  [Finite (9 # 10); Finite (1 # 2); Finite (2 # 5); Finite (7 # 10)].

Definition low_scores : list float64 :=
  [Finite (1 # 10); Finite (1 # 2); Finite (2 # 5)].

Definition moon_points : ndarray :=
  [ [Finite (1 # 2); Finite (3 # 2)]; [Finite (- (1 # 4)); Finite (4 # 5)] ].

(** The notebook cell that calls [make_csv] on the training split:
    [data_dir = 'data_moon'], [name = 'train.csv'],
    [make_csv(X_train, Y_train, name, data_dir)]. *)
Definition create_train_csv (X_train : ndarray) (Y_train : list Z) : py () :=
  let data_dir := "data_moon" in
  let name := "train.csv" in
  make_csv X_train Y_train name data_dir.

(** A rounded prediction that is neither 0 nor 1. *)
Definition stray (r : float64) : bool := negb (equals 0 r) && negb (equals 1 r).

(** The number of rounded predictions equal to 1. *)
Definition predicted_positives (preds : list float64) : Z :=
  np_sum (equals 1 <$> preds).

(** More sample inputs: a service that knows the endpoint, the same service
    behind a failing connection, and a working directory that holds a
    file. *)
Definition deployed_world : world :=
  {| files := Dir ∅; stdout := []; endpoints := {["moon"]}; api_log := [];
     pending_faults := [] |}.

Definition offline_world : world :=
  {| files := Dir ∅; stdout := []; endpoints := {["moon"]}; api_log := [];
     pending_faults := [Some EndpointConnectionError] |}.

Definition stocked_world : world :=
  {| files := Dir {["notes.txt" := File "moon"]}; stdout := []; endpoints := ∅;
     api_log := []; pending_faults := [] |}.

(** Evaluate the injections of integer literals, then decide the linear
    facts over the rationals. *)
Ltac inject_consts :=
  repeat match goal with
         | H : context [inject_Z ?z] |- _ =>
             let v := eval vm_compute in (inject_Z z) in
             change (inject_Z z) with v in H
         | |- context [inject_Z ?z] =>
             let v := eval vm_compute in (inject_Z z) in
             change (inject_Z z) with v
         end.
Ltac qlra := inject_consts; lra.

(** ** The definitions on sample inputs *)

Example round_half_even_samples :
  round_half_even <$> [1 # 2; 3 # 2; 5 # 2; - (1 # 2); 7 # 10; 149 # 100; 2]%Q
  = [0; 2; 2; 0; 1; 1; 2].
Proof. reflexivity. Qed.

Example components_samples :
  components "data_moon" = ["data_moon"] ∧
  components "data//moon/./train.csv" = ["data"; "moon"; "train.csv"] ∧
  components "." = [].
Proof. by vm_compute. Qed.

Example np_true_divide_samples :
  np_true_divide 2 3 = Finite (2 # 3) ∧ np_true_divide 4 6 = Finite (2 # 3) ∧
  np_true_divide 0 0 = NaN ∧ np_true_divide 3 0 = Inf false.
Proof. by vm_compute. Qed.

Example broadcast_samples :
  np_logical_and [1; 0] [Finite 1] = Returned [true; false] ∧
  np_logical_and [1; 0] [Finite 1; Finite 0; Finite 1] = Raised ValueError.
Proof. by vm_compute. Qed.

(** A path that goes on after the name of a file is not there, and cannot
    be made. *)
Example trailing_path_samples :
  (os_path_exists "notes.txt" stocked_world).1 = Returned true ∧
  (os_path_exists "./notes.txt" stocked_world).1 = Returned true ∧
  (os_path_exists "notes.txt/" stocked_world).1 = Returned false ∧
  (os_path_exists "notes.txt/." stocked_world).1 = Returned false ∧
  (os_makedirs "notes.txt/" stocked_world).1 = Raised FileExistsError ∧
  (os_makedirs "notes.txt/." stocked_world).1 = Raised NotADirectoryError ∧
  (os_makedirs "notes.txt/x" stocked_world).1 = Raised NotADirectoryError ∧
  make_csv moon_points [1; 0] "train.csv" "notes.txt/" stocked_world =
  (Raised FileExistsError, stocked_world).
Proof. by vm_compute. Qed.

Example pd_crosstab_samples :
  pd_crosstab [1; 0] [Finite 1; Finite 0] ["actuals"] ["predictions"] =
    Returned (Crosstab [1; 0] [Finite 1; Finite 0] ["actuals"] ["predictions"]) ∧
  pd_crosstab [1] [Finite 1; Finite 0; Finite 1] ["actuals"] ["predictions"] =
    Raised ValueError.
Proof. by vm_compute. Qed.

(** A file on the way: [os.makedirs] raises, and so does [make_csv]. *)
Example make_csv_file_on_the_way :
  let w' := {| files := Dir {["data" := File "x"]}; stdout := []; endpoints := ∅;
               api_log := []; pending_faults := [] |} in
  make_csv moon_points [1; 0] "train.csv" "data/moon" w' =
  (Raised NotADirectoryError, w').
Proof. reflexivity. Qed.

(** The three ways a [delete_endpoint] call can go. *)
Example delete_endpoint_samples :
  let known := {| files := Dir ∅; stdout := []; endpoints := {["moon"]};
                  api_log := []; pending_faults := [] |} in
  let offline := {| files := Dir ∅; stdout := []; endpoints := {["moon"]};
                    api_log := [];
                    pending_faults := [Some EndpointConnectionError] |} in
  let p := answering "moon" moon_scores in
  (delete_endpoint p known).1 = Returned () ∧
  stdout (delete_endpoint p known).2 = [Text "Deleted moon"] ∧
  (delete_endpoint p empty_world).1 = Returned () ∧
  stdout (delete_endpoint p empty_world).2 = [Text "Already deleted: moon"] ∧
  (delete_endpoint p offline).1 = Returned () ∧
  stdout (delete_endpoint p offline).2 = [Text "Already deleted: moon"].
Proof. by vm_compute. Qed.

(** ** Reading the definitions *)

Lemma with_stdout_nil w : with_stdout w [] = w.
Proof. destruct w. unfold with_stdout. simpl. by rewrite app_nil_r. Qed.

Lemma with_stdout_app w xs ys :
  with_stdout (with_stdout w xs) ys = with_stdout w (xs ++ ys).
Proof. unfold with_stdout. simpl. by rewrite app_assoc. Qed.

Lemma print_run p w : print p w = (Returned (), with_stdout w [p]).
Proof. reflexivity. Qed.

Lemma broadcast_same_length {A B C : Type} (f : A → B → C) a b :
  length a = length b → broadcast f a b = Returned (zip_with f a b).
Proof.
  intros Hlen. unfold broadcast.
  apply Nat.eqb_eq in Hlen. by rewrite Hlen.
Qed.

Lemma np_sum_nonneg bs : 0 ≤ np_sum bs.
Proof. induction bs as [|[] bs IH]; simpl; lia. Qed.

Lemma pd_crosstab_same_length index columns rownames colnames :
  length columns = length index →
  pd_crosstab index columns rownames colnames =
  Returned (Crosstab index columns rownames colnames).
Proof.
  intros Hlen. unfold pd_crosstab.
  apply eq_sym, Nat.eqb_eq in Hlen. rewrite Hlen. by rewrite orb_true_r.
Qed.

(** [evaluate] either stops at the first mask that does not broadcast, or,
    when verbose, at a cross table that cannot be built, or returns the
    report of the four counts; only the verbose branch touches the world,
    and only its output. *)
Lemma evaluate_run p X labels verbose w :
  evaluate p X labels verbose w =
  match confusion labels (rounded p X) with
  | Returned (tp, fp, tn, fn) =>
      if verbose then
        match pd_crosstab labels (rounded p X) ["actuals"] ["predictions"] with
        | Returned _ =>
            (Returned (report tp fp tn fn),
             with_stdout w (table labels (rounded p X) tp fp tn fn))
        | Raised e => (Raised e, w)
        end
      else (Returned (report tp fp tn fn), w)
  | Raised e => (Raised e, w)
  end.
Proof.
  unfold evaluate, confusion, rounded, np_squeeze, lift.
  unfold mbind, py_bind, outcome_bind.
  destruct (np_logical_and labels _) as [tp|e]; [|done].
  destruct (np_logical_and (np_rsub1 labels) _) as [fp|e]; [|done].
  destruct (np_logical_and (np_rsub1 labels) (np_rsub1 _)) as [tn|e]; [|done].
  destruct (np_logical_and labels (np_rsub1 _)) as [fn|e]; [|done].
  destruct verbose; [|done].
  unfold pd_crosstab. destruct (_ || _); [|done].
  rewrite !print_run, !with_stdout_app. done.
Qed.

Lemma confusion_same_length labels preds :
  length preds = length labels →
  confusion labels preds =
  Returned (count_and labels preds,
            count_and (np_rsub1 labels) preds,
            count_and (np_rsub1 labels) (np_rsub1 preds),
            count_and labels (np_rsub1 preds)).
Proof.
  intros Hlen. unfold confusion, np_logical_and, np_rsub1.
  rewrite !broadcast_same_length by (rewrite ?length_fmap; done).
  done.
Qed.

(** ** Rounding *)

Lemma round_half_even_range q :
  (- (1 # 2) <= q)%Q → (q < 3 # 2)%Q →
  round_half_even q = 0 ∨ round_half_even q = 1.
Proof.
  intros Hlo Hhi. unfold round_half_even.
  pose proof (Qfloor_le q) as Hfl. pose proof (Qlt_floor q) as Hfu.
  set (f := Qfloor q) in *. clearbody f.
  assert (Hf : f = -1 ∨ f = 0 ∨ f = 1).
  { assert (inject_Z f < 3 # 2)%Q as H1 by (eapply Qle_lt_trans; eauto).
    assert (- (1 # 2) < inject_Z (f + 1))%Q as H2 by (eapply Qle_lt_trans; eauto).
    unfold Qlt in H1, H2. simpl in H1, H2. lia. }
  destruct (Qcompare_spec (q - inject_Z f) (1 # 2)) as [Hc|Hc|Hc];
    destruct Hf as [-> | [-> | ->]]; simpl; auto; exfalso; qlra.
Qed.

Lemma round_half_even_range_inv q :
  round_half_even q = 0 ∨ round_half_even q = 1 →
  (- (1 # 2) <= q)%Q ∧ (q < 3 # 2)%Q.
Proof.
  unfold round_half_even.
  pose proof (Qfloor_le q) as Hfl. pose proof (Qlt_floor q) as Hfu.
  set (f := Qfloor q) in *. clearbody f.
  destruct (Qcompare_spec (q - inject_Z f) (1 # 2)) as [Hc|Hc|Hc].
  - destruct (Z.even f) eqn:He; intros [H|H].
    + subst f. split; qlra.
    + subst f. discriminate He.
    + assert (f = -1) as -> by lia. split; qlra.
    + assert (f = 0) as -> by lia. discriminate He.
  - intros [H|H]; subst f; split; qlra.
  - intros [H|H]; [assert (f = -1) as -> by lia|assert (f = 0) as -> by lia];
    split; qlra.
Qed.

Lemma np_round_bit x : in_rounding_range x ↔ is_bit (np_round x).
Proof.
  unfold is_bit. destruct x as [q| |s]; simpl.
  - split.
    + intros [Hlo Hhi].
      destruct (round_half_even_range q Hlo Hhi) as [-> | ->]; auto.
    + intros H. apply round_half_even_range_inv.
      destruct H as [H|H]; injection H as H; auto.
  - split; [done|]. by intros [?|?].
  - split; [done|]. by intros [?|?].
Qed.

(** A score of [0, 1], as a sigmoid gives it, is in the range. *)
Lemma unit_interval_in_rounding_range q :
  (0 <= q)%Q → (q <= 1)%Q → in_rounding_range (Finite q).
Proof. intros Hlo Hhi. simpl. split; lra. Qed.

Lemma rounded_bits p X :
  Forall in_rounding_range (predict p X) → Forall is_bit (rounded p X).
Proof.
  unfold rounded. intros H. apply Forall_fmap.
  eapply Forall_impl; [exact H|]. intros x Hx. by apply np_round_bit.
Qed.

Lemma length_rounded p X : length (rounded p X) = length (predict p X).
Proof. unfold rounded. apply length_fmap. Qed.

(** ** Counting *)

Lemma np_sum_filter {A B : Type} (f : A → B → bool) (a : list A) (b : list B) :
  np_sum (zip_with f a b) =
  Z.of_nat (length (List.filter (λ xy : A * B, f xy.1 xy.2) (zip a b))).
Proof.
  revert b. induction a as [|x a IH]; intros [|y b]; try done.
  cbn [zip_with np_sum List.filter fst snd]. rewrite IH.
  destruct (f x y); cbn [length Z.b2z]; lia.
Qed.

Lemma positions_sum lv pv labels preds :
  positions lv pv labels preds =
  np_sum (zip_with (λ l p, (l =? lv) && equals pv p) labels preds).
Proof.
  unfold positions.
  by rewrite (np_sum_filter (λ l p, (l =? lv) && equals pv p)).
Qed.

Lemma np_sum_zip_with_ext {A B : Type} (P : A → Prop) (Q : B → Prop)
    (f g : A → B → bool) (a : list A) (b : list B) :
  (∀ x y, P x → Q y → f x y = g x y) →
  Forall P a → Forall Q b →
  np_sum (zip_with f a b) = np_sum (zip_with g a b).
Proof.
  intros Hfg Ha. revert b.
  induction Ha as [|x a Hx Ha IH]; intros b Hb; [done|].
  destruct Hb as [|y b Hy Hb]; [done|].
  simpl. by rewrite (Hfg x y), IH.
Qed.

Section per_position.
Context (l : Z) (r : float64) (Hl : is_label l) (Hr : is_bit r).

Lemma tp_position : nonzero l && nonzero r = (l =? 1) && equals 1 r.
Proof using Hl Hr. by destruct Hl as [-> | ->], Hr as [-> | ->]. Qed.

Lemma fp_position : nonzero (one_minus l) && nonzero r = (l =? 0) && equals 1 r.
Proof using Hl Hr. by destruct Hl as [-> | ->], Hr as [-> | ->]. Qed.

Lemma tn_position :
  nonzero (one_minus l) && nonzero (one_minus r) = (l =? 0) && equals 0 r.
Proof using Hl Hr. by destruct Hl as [-> | ->], Hr as [-> | ->]. Qed.

Lemma fn_position : nonzero l && nonzero (one_minus r) = (l =? 1) && equals 0 r.
Proof using Hl Hr. by destruct Hl as [-> | ->], Hr as [-> | ->]. Qed.

(** Exactly one of the four masks holds at a position. *)
Lemma one_mask_per_position :
  Z.b2z (nonzero l && nonzero r) + Z.b2z (nonzero (one_minus l) && nonzero r)
  + Z.b2z (nonzero (one_minus l) && nonzero (one_minus r))
  + Z.b2z (nonzero l && nonzero (one_minus r)) = 1.
Proof using Hl Hr. by destruct Hl as [-> | ->], Hr as [-> | ->]. Qed.
End per_position.

Section counts.
Context (labels : list Z) (preds : list float64).
Context (Hlabels : Forall is_label labels) (Hpreds : Forall is_bit preds).

Lemma count_tp : count_and labels preds = spec_TP labels preds.
Proof using Hlabels Hpreds.
  unfold count_and, spec_TP. rewrite positions_sum.
  eapply np_sum_zip_with_ext; eauto using tp_position.
Qed.

Lemma count_fp : count_and (np_rsub1 labels) preds = spec_FP labels preds.
Proof using Hlabels Hpreds.
  unfold count_and, np_rsub1, spec_FP.
  rewrite positions_sum, zip_with_fmap_l.
  eapply np_sum_zip_with_ext; eauto using fp_position.
Qed.

Lemma count_tn :
  count_and (np_rsub1 labels) (np_rsub1 preds) = spec_TN labels preds.
Proof using Hlabels Hpreds.
  unfold count_and, np_rsub1, spec_TN.
  rewrite positions_sum, zip_with_fmap_l, zip_with_fmap_r.
  eapply np_sum_zip_with_ext; eauto using tn_position.
Qed.

Lemma count_fn : count_and labels (np_rsub1 preds) = spec_FN labels preds.
Proof using Hlabels Hpreds.
  unfold count_and, np_rsub1, spec_FN.
  rewrite positions_sum, zip_with_fmap_r.
  eapply np_sum_zip_with_ext; eauto using fn_position.
Qed.
End counts.

Lemma counts_total labels preds :
  Forall is_label labels → Forall is_bit preds → length preds = length labels →
  count_and labels preds + count_and (np_rsub1 labels) preds
  + count_and (np_rsub1 labels) (np_rsub1 preds)
  + count_and labels (np_rsub1 preds) = Z.of_nat (length labels).
Proof.
  unfold count_and, np_rsub1. intros Hl. revert preds.
  induction Hl as [|l labels Hl Hls IH]; intros preds Hp Hlen.
  - by destruct preds.
  - destruct Hp as [|r preds Hr Hp]; [done|].
    injection Hlen as Hlen. specialize (IH preds Hp Hlen).
    pose proof (one_mask_per_position l r Hl Hr) as Hone.
    cbn [fmap list_fmap zip_with np_sum length] in *. lia.
Qed.

Lemma count_and_nonneg {A B : Type} `{NpScalar A, NpScalar B}
    (a : list A) (b : list B) : 0 ≤ count_and a b.
Proof. apply np_sum_nonneg. Qed.

(** ** Division *)

Lemma np_true_divide_self a : a ≠ 0 → np_true_divide a a = Finite 1.
Proof.
  intros Ha. unfold np_true_divide.
  destruct (Z.eqb_spec a 0) as [|_]; [done|].
  f_equal. change 1%Q with (Qred 1). apply Qred_complete.
  apply Qmult_inv_r. unfold Qeq. simpl. lia.
Qed.

Lemma np_true_divide_zero b : b ≠ 0 → np_true_divide 0 b = Finite 0.
Proof.
  intros Hb. unfold np_true_divide.
  by destruct (Z.eqb_spec b 0).
Qed.

Lemma np_true_divide_zero_zero : np_true_divide 0 0 = NaN.
Proof. reflexivity. Qed.

(** ** The report *)

Lemma report_lookup tp fp tn fn :
  let d := report tp fp tn fn in
  d !! "TP" = Some (PyInt tp) ∧ d !! "FP" = Some (PyInt fp) ∧
  d !! "TN" = Some (PyInt tn) ∧ d !! "FN" = Some (PyInt fn) ∧
  d !! "Recall" = Some (PyFloat (np_true_divide tp (tp + fn))) ∧
  d !! "Precision" = Some (PyFloat (np_true_divide tp (tp + fp))) ∧
  d !! "Accuracy" = Some (PyFloat (np_true_divide (tp + tn) (tp + fp + tn + fn))).
Proof. cbv zeta. unfold report. repeat split; by simplify_map_eq. Qed.

Lemma evaluate_same_length p X labels verbose w :
  length (predict p X) = length labels →
  evaluate p X labels verbose w =
  let preds := rounded p X in
  let tp := count_and labels preds in
  let fp := count_and (np_rsub1 labels) preds in
  let tn := count_and (np_rsub1 labels) (np_rsub1 preds) in
  let fn := count_and labels (np_rsub1 preds) in
  (Returned (report tp fp tn fn),
   if verbose then with_stdout w (table labels preds tp fp tn fn) else w).
Proof.
  intros Hlen.
  assert (Hlen' : length (rounded p X) = length labels)
    by (by rewrite length_rounded).
  rewrite evaluate_run, confusion_same_length, pd_crosstab_same_length by done.
  by destruct verbose.
Qed.

(** The result of [evaluate] does not depend on the world it runs in. *)
Lemma evaluate_result_any_world p X labels verbose w w' :
  (evaluate p X labels verbose w).1 = (evaluate p X labels verbose w').1.
Proof.
  rewrite !evaluate_run.
  destruct (confusion labels (rounded p X)) as [[[[tp fp] tn] fn]|e]; [|done].
  destruct verbose; [|done].
  by destruct (pd_crosstab labels (rounded p X) _ _).
Qed.

(** ** Predictions that are the labels, or their opposites *)

Lemma np_sum_diag (f : Z → float64) (m : Z → float64 → bool) (v : Z → bool)
    (labels : list Z) :
  (∀ l, is_label l → m l (f l) = v l) →
  Forall is_label labels →
  np_sum (zip_with m labels (f <$> labels)) = np_sum (v <$> labels).
Proof.
  intros Hm Hl. induction Hl as [|l labels Hl _ IH]; [done|].
  cbn [fmap list_fmap zip_with np_sum] in *. by rewrite Hm, IH.
Qed.

Lemma np_sum_all_false {A : Type} (l : list A) : np_sum ((λ _, false) <$> l) = 0.
Proof. induction l as [|x l IH]; [done|]. simpl. exact IH. Qed.

Lemma occurrences_pos v labels : v ∈ labels → 0 < occurrences v labels.
Proof.
  unfold occurrences. induction labels as [|l labels IH]; intros Hin.
  - by apply elem_of_nil in Hin.
  - cbn [fmap list_fmap np_sum].
    pose proof (np_sum_nonneg ((λ l, l =? v) <$> labels)) as Hnn.
    apply elem_of_cons in Hin as [<- | Hin].
    + rewrite Z.eqb_refl. simpl. lia.
    + specialize (IH Hin). destruct (l =? v); simpl; lia.
Qed.

(** The count of a mask when the predictions are a function of the labels:
    one case per label value. *)
Ltac count_diag labels Hlabels v :=
  unfold count_and, np_rsub1, occurrences;
  rewrite ?zip_with_fmap_l, <- ?list_fmap_compose;
  apply (np_sum_diag _ _ v); [|exact Hlabels];
  by intros ? [-> | ->].

Ltac count_none labels Hlabels :=
  etrans; [|exact (np_sum_all_false labels)];
  count_diag labels Hlabels (λ _ : Z, false).

Section extreme_predictions.
Context (labels : list Z) (Hlabels : Forall is_label labels).

Lemma all_correct_tp : count_and labels (label_as_float <$> labels) = occurrences 1 labels.
Proof using Hlabels. count_diag labels Hlabels (λ l, l =? 1). Qed.

Lemma all_correct_fp : count_and (np_rsub1 labels) (label_as_float <$> labels) = 0.
Proof using Hlabels. count_none labels Hlabels. Qed.

Lemma all_correct_tn :
  count_and (np_rsub1 labels) (np_rsub1 (label_as_float <$> labels)) = occurrences 0 labels.
Proof using Hlabels. count_diag labels Hlabels (λ l, l =? 0). Qed.

Lemma all_correct_fn : count_and labels (np_rsub1 (label_as_float <$> labels)) = 0.
Proof using Hlabels. count_none labels Hlabels. Qed.

Lemma all_wrong_tp : count_and labels (opposite_label <$> labels) = 0.
Proof using Hlabels. count_none labels Hlabels. Qed.

Lemma all_wrong_fp : count_and (np_rsub1 labels) (opposite_label <$> labels) = occurrences 0 labels.
Proof using Hlabels. count_diag labels Hlabels (λ l, l =? 0). Qed.

Lemma all_wrong_tn : count_and (np_rsub1 labels) (np_rsub1 (opposite_label <$> labels)) = 0.
Proof using Hlabels. count_none labels Hlabels. Qed.

Lemma all_wrong_fn : count_and labels (np_rsub1 (opposite_label <$> labels)) = occurrences 1 labels.
Proof using Hlabels. count_diag labels Hlabels (λ l, l =? 1). Qed.
End extreme_predictions.

(** ** The properties of [evaluate] *)

(** C1: on the labels [1,0,1,1] and scores that round to [1,0,0,1],
    [evaluate] returns TP = 2, FP = 0, TN = 1, FN = 1, recall 2/3,
    precision 1 and accuracy 3/4. *)
Theorem evaluate_worked_example p X verbose w :
  rounded p X = [Finite 1; Finite 0; Finite 0; Finite 1] →
  ∃ d, (evaluate p X [1; 0; 1; 1] verbose w).1 = Returned d ∧
    d !! "TP" = Some (PyInt 2) ∧ d !! "FP" = Some (PyInt 0) ∧
    d !! "TN" = Some (PyInt 1) ∧ d !! "FN" = Some (PyInt 1) ∧
    d !! "Recall" = Some (PyFloat (Finite (2 # 3))) ∧
    d !! "Precision" = Some (PyFloat (Finite 1)) ∧
    d !! "Accuracy" = Some (PyFloat (Finite (3 # 4))).
Proof.
  intros Hround. rewrite evaluate_run, Hround.
  change (confusion _ _) with (Returned (A := Z * Z * Z * Z) (2, 0, 1, 1)).
  change (pd_crosstab _ _ _ _)
    with (Returned (Crosstab [1; 0; 1; 1]
                      [Finite 1; Finite 0; Finite 0; Finite 1]
                      ["actuals"] ["predictions"])).
  exists (report 2 0 1 1). split; [by destruct verbose|].
  destruct (report_lookup 2 0 1 1) as (-> & -> & -> & -> & -> & -> & ->).
  done.
Qed.

Lemma evaluate_worked_example_witness :
  let p := answering "moon" moon_scores in
  rounded p moon_points = [Finite 1; Finite 0; Finite 0; Finite 1] ∧
  ∃ d, (evaluate p moon_points [1; 0; 1; 1] true empty_world).1 = Returned d ∧
    d !! "TP" = Some (PyInt 2) ∧ d !! "FP" = Some (PyInt 0) ∧
    d !! "TN" = Some (PyInt 1) ∧ d !! "FN" = Some (PyInt 1) ∧
    d !! "Recall" = Some (PyFloat (Finite (2 # 3))) ∧
    d !! "Precision" = Some (PyFloat (Finite 1)) ∧
    d !! "Accuracy" = Some (PyFloat (Finite (3 # 4))).
Proof.
  split; [reflexivity|].
  apply evaluate_worked_example. reflexivity.
Defined.

(** C2, as the code has it: for labels in {0,1} and as many scores, each of
    which [np.round] sends to 0 or 1 (every score from -0.5 up to, not
    including, 1.5, so every sigmoid output), the rounded predictions are
    0 or 1, TP, FP, TN and FN are the numbers of positions with (label,
    prediction) = (1,1), (0,1), (0,0), (1,0), and the returned recall,
    precision and accuracy are TP/(TP+FN), TP/(TP+FP) and
    (TP+TN)/(TP+FP+TN+FN). *)
Theorem evaluate_counts_and_rates p X labels verbose w :
  Forall is_label labels →
  length (predict p X) = length labels →
  Forall in_rounding_range (predict p X) →
  let preds := rounded p X in
  let TP := spec_TP labels preds in
  let FP := spec_FP labels preds in
  let TN := spec_TN labels preds in
  let FN := spec_FN labels preds in
  Forall is_bit preds ∧
  ∃ d, (evaluate p X labels verbose w).1 = Returned d ∧
    d !! "TP" = Some (PyInt TP) ∧ d !! "FP" = Some (PyInt FP) ∧
    d !! "TN" = Some (PyInt TN) ∧ d !! "FN" = Some (PyInt FN) ∧
    d !! "Recall" = Some (PyFloat (np_true_divide TP (TP + FN))) ∧
    d !! "Precision" = Some (PyFloat (np_true_divide TP (TP + FP))) ∧
    d !! "Accuracy" = Some (PyFloat (np_true_divide (TP + TN) (TP + FP + TN + FN))).
Proof.
  intros Hl Hlen Hrange preds TP FP TN FN.
  pose proof (rounded_bits p X Hrange) as Hbits.
  split; [exact Hbits|].
  rewrite evaluate_same_length by done. cbv zeta. fold preds.
  rewrite (count_tp labels preds), (count_fp labels preds),
    (count_tn labels preds), (count_fn labels preds) by done.
  eexists; split; [done|]. apply report_lookup.
Qed.

Lemma evaluate_counts_and_rates_witness :
  let p := answering "moon" moon_scores in
  let labels := [1; 0; 1; 1] in
  let preds := rounded p moon_points in
  let TP := spec_TP labels preds in
  let FP := spec_FP labels preds in
  let TN := spec_TN labels preds in
  let FN := spec_FN labels preds in
  (Forall is_label labels ∧ length (predict p moon_points) = length labels ∧
   Forall in_rounding_range (predict p moon_points)) ∧
  Forall is_bit preds ∧
  ∃ d, (evaluate p moon_points labels false empty_world).1 = Returned d ∧
    d !! "TP" = Some (PyInt TP) ∧ d !! "FP" = Some (PyInt FP) ∧
    d !! "TN" = Some (PyInt TN) ∧ d !! "FN" = Some (PyInt FN) ∧
    d !! "Recall" = Some (PyFloat (np_true_divide TP (TP + FN))) ∧
    d !! "Precision" = Some (PyFloat (np_true_divide TP (TP + FP))) ∧
    d !! "Accuracy" = Some (PyFloat (np_true_divide (TP + TN) (TP + FP + TN + FN))).
Proof.
  cbv zeta.
  assert (Hl : Forall is_label [1; 0; 1; 1])
    by (repeat constructor; by (left + right)).
  assert (Hr : Forall in_rounding_range moon_scores)
    by (repeat constructor; by vm_compute).
  split; [by repeat split|].
  exact (evaluate_counts_and_rates (answering "moon" moon_scores) moon_points
           [1; 0; 1; 1] false empty_world Hl eq_refl Hr).
Defined.

(** C2 as stated fails: a score of 2 stays 2 after rounding, and the
    position counts as a true positive and as a false negative although the
    rounded prediction is neither 1 nor 0. *)
Lemma evaluate_counts_unrounded_score :
  let p := answering "moon" [Finite 2] in
  let labels := [1] in
  Forall is_label labels ∧ length (predict p moon_points) = length labels ∧
  rounded p moon_points = [Finite 2] ∧
  ¬ Forall is_bit (rounded p moon_points) ∧
  ∃ d, (evaluate p moon_points labels false empty_world).1 = Returned d ∧
    d !! "TP" = Some (PyInt 1) ∧ spec_TP labels (rounded p moon_points) = 0 ∧
    d !! "FN" = Some (PyInt 1) ∧ spec_FN labels (rounded p moon_points) = 0.
Proof.
  cbv zeta. split; [repeat constructor; by right|].
  split; [done|]. split; [done|]. split.
  - intros H. apply Forall_cons in H as [[H|H] _]; discriminate H.
  - eexists. split; [reflexivity|]. by vm_compute.
Qed.

(** C3, as the code has it: for labels in {0,1} and as many scores, each of
    which [np.round] sends to 0 or 1 (every score from -0.5 up to, not
    including, 1.5), the four counts are non-negative integers and add up
    to the number of examples. *)
Theorem evaluate_counts_partition p X labels verbose w :
  Forall is_label labels →
  length (predict p X) = length labels →
  Forall in_rounding_range (predict p X) →
  ∃ d tp fp tn fn, (evaluate p X labels verbose w).1 = Returned d ∧
    d !! "TP" = Some (PyInt tp) ∧ d !! "FP" = Some (PyInt fp) ∧
    d !! "TN" = Some (PyInt tn) ∧ d !! "FN" = Some (PyInt fn) ∧
    0 ≤ tp ∧ 0 ≤ fp ∧ 0 ≤ tn ∧ 0 ≤ fn ∧
    tp + fp + tn + fn = Z.of_nat (length labels).
Proof.
  intros Hl Hlen Hrange.
  pose proof (rounded_bits p X Hrange) as Hbits.
  rewrite evaluate_same_length by done. cbv zeta.
  set (preds := rounded p X) in *.
  eexists _, _, _, _, _. split; [done|].
  destruct (report_lookup (count_and labels preds)
              (count_and (np_rsub1 labels) preds)
              (count_and (np_rsub1 labels) (np_rsub1 preds))
              (count_and labels (np_rsub1 preds)))
    as (HTP & HFP & HTN & HFN & _).
  repeat (split; [eassumption || apply count_and_nonneg|]).
  apply counts_total; [done..|]. unfold preds. by rewrite length_rounded.
Qed.

Lemma evaluate_counts_partition_witness :
  let p := answering "moon" moon_scores in
  let labels := [1; 0; 1; 1] in
  (Forall is_label labels ∧ length (predict p moon_points) = length labels ∧
   Forall in_rounding_range (predict p moon_points)) ∧
  ∃ d tp fp tn fn,
    (evaluate p moon_points labels false empty_world).1 = Returned d ∧
    d !! "TP" = Some (PyInt tp) ∧ d !! "FP" = Some (PyInt fp) ∧
    d !! "TN" = Some (PyInt tn) ∧ d !! "FN" = Some (PyInt fn) ∧
    0 ≤ tp ∧ 0 ≤ fp ∧ 0 ≤ tn ∧ 0 ≤ fn ∧
    tp + fp + tn + fn = Z.of_nat (length labels).
Proof.
  cbv zeta.
  assert (Hl : Forall is_label [1; 0; 1; 1])
    by (repeat constructor; by (left + right)).
  assert (Hr : Forall in_rounding_range moon_scores)
    by (repeat constructor; by vm_compute).
  split; [by repeat split|].
  exact (evaluate_counts_partition (answering "moon" moon_scores) moon_points
           [1; 0; 1; 1] false empty_world Hl eq_refl Hr).
Defined.

(** C3 as stated fails: with the label 1 and the score 2 the one example is
    counted twice, as a true positive and as a false negative. *)
Lemma evaluate_counts_exceed_examples :
  let p := answering "moon" [Finite 2] in
  let labels := [1] in
  Forall is_label labels ∧ length (predict p moon_points) = length labels ∧
  ∃ d, (evaluate p moon_points labels false empty_world).1 = Returned d ∧
    d !! "TP" = Some (PyInt 1) ∧ d !! "FP" = Some (PyInt 0) ∧
    d !! "TN" = Some (PyInt 0) ∧ d !! "FN" = Some (PyInt 1) ∧
    1 + 0 + 0 + 1 ≠ Z.of_nat (length labels).
Proof.
  cbv zeta. split; [repeat constructor; by right|]. split; [done|].
  eexists. split; [reflexivity|]. by vm_compute.
Qed.

(** C4: the divisions are unguarded.  When every label is 0 and every
    prediction rounds to 0, TP + FN = 0 and TP + FP = 0, and [evaluate]
    still returns: recall and precision are what the division of zero by
    zero gives, [nan]; no exception is raised. *)
Theorem evaluate_zero_denominators p X labels verbose w :
  Forall (λ l, l = 0) labels →
  length (predict p X) = length labels →
  Forall (λ s, np_round s = Finite 0) (predict p X) →
  ∃ d, (evaluate p X labels verbose w).1 = Returned d ∧
    d !! "TP" = Some (PyInt 0) ∧ d !! "FN" = Some (PyInt 0) ∧
    d !! "FP" = Some (PyInt 0) ∧
    d !! "Recall" = Some (PyFloat (np_true_divide 0 (0 + 0))) ∧
    d !! "Precision" = Some (PyFloat (np_true_divide 0 (0 + 0))) ∧
    np_true_divide 0 (0 + 0) = NaN.
Proof.
  intros Hl Hlen Hs.
  assert (Hlabels : Forall is_label labels)
    by (eapply Forall_impl; [exact Hl|]; by left).
  assert (Hbits : Forall is_bit (rounded p X)).
  { unfold rounded. apply Forall_fmap. eapply Forall_impl; [exact Hs|].
    intros s Hz. by left. }
  assert (Hnone : ∀ pv, positions 1 pv labels (rounded p X) = 0).
  { intros pv. rewrite positions_sum. clear -Hl.
    generalize (rounded p X).
    induction Hl as [|l labels -> _ IH]; intros [|r preds]; try done.
    simpl. apply IH. }
  assert (Hfp : spec_FP labels (rounded p X) = 0).
  { unfold spec_FP. rewrite positions_sum. unfold rounded. clear -Hs.
    revert labels.
    induction Hs as [|s scores Hs _ IH]; intros [|l labels]; try done.
    cbn [fmap list_fmap zip_with np_sum]. rewrite Hs, IH.
    by rewrite andb_false_r. }
  rewrite evaluate_same_length by done. cbv zeta.
  rewrite (count_tp labels _), (count_fp labels _), (count_fn labels _) by done.
  unfold spec_TP, spec_FN. rewrite !Hnone, Hfp.
  eexists. split; [done|].
  match goal with
  | |- context [report 0 0 ?tn 0] =>
      destruct (report_lookup 0 0 tn 0) as (-> & -> & _ & -> & -> & -> & _)
  end.
  done.
Qed.

Lemma evaluate_zero_denominators_witness :
  let p := answering "moon" low_scores in
  (Forall (λ l, l = 0) [0; 0; 0] ∧
   length (predict p moon_points) = length [0; 0; 0] ∧
   Forall (λ s, np_round s = Finite 0) (predict p moon_points)) ∧
  ∃ d, (evaluate p moon_points [0; 0; 0] true empty_world).1 = Returned d ∧
    d !! "TP" = Some (PyInt 0) ∧ d !! "FN" = Some (PyInt 0) ∧
    d !! "FP" = Some (PyInt 0) ∧
    d !! "Recall" = Some (PyFloat (np_true_divide 0 (0 + 0))) ∧
    d !! "Precision" = Some (PyFloat (np_true_divide 0 (0 + 0))) ∧
    np_true_divide 0 (0 + 0) = NaN.
Proof.
  cbv zeta.
  assert (Hl : Forall (λ l, l = 0) [0; 0; 0]) by (by repeat constructor).
  assert (Hs : Forall (λ s, np_round s = Finite 0) low_scores)
    by (by repeat constructor).
  split; [by repeat split|].
  exact (evaluate_zero_denominators (answering "moon" low_scores) moon_points
           [0; 0; 0] true empty_world Hl eq_refl Hs).
Defined.

(** C5: [evaluate] is deterministic and idempotent.  Its result is the same
    in every world, and a second call with the same arguments, run after
    the first, returns the same dictionary. *)
Theorem evaluate_idempotent p X labels verbose w w' :
  (evaluate p X labels verbose w).1 = (evaluate p X labels verbose w').1 ∧
  (evaluate p X labels verbose (evaluate p X labels verbose w).2).1 =
  (evaluate p X labels verbose w).1.
Proof. split; apply evaluate_result_any_world. Qed.

(** C9, as the code has it: with as many predictions as labels, the
    verbose flag does not influence the result.  The two calls return the
    same dictionary; the quiet call leaves the world as it was; the verbose
    call only appends to the output. *)
Theorem evaluate_verbose_only_prints p X labels w :
  length (predict p X) = length labels →
  let loud := evaluate p X labels true w in
  let quiet := evaluate p X labels false w in
  ∃ d, loud.1 = Returned d ∧ quiet.1 = Returned d ∧ quiet.2 = w ∧
    ∃ extra, loud.2 = with_stdout w extra.
Proof.
  intros Hlen. cbv zeta. rewrite !evaluate_same_length by done. cbv zeta.
  eexists. split; [done|]. split; [done|]. split; [done|]. by eexists.
Qed.

Lemma evaluate_verbose_only_prints_witness :
  let p := answering "moon" moon_scores in
  let labels := [1; 0; 1; 1] in
  let loud := evaluate p moon_points labels true empty_world in
  let quiet := evaluate p moon_points labels false empty_world in
  length (predict p moon_points) = length labels ∧
  ∃ d, loud.1 = Returned d ∧ quiet.1 = Returned d ∧ quiet.2 = empty_world ∧
    ∃ extra, loud.2 = with_stdout empty_world extra.
Proof.
  cbv zeta. split; [reflexivity|].
  exact (evaluate_verbose_only_prints (answering "moon" moon_scores)
           moon_points [1; 0; 1; 1] empty_world eq_refl).
Defined.

(** C9 as stated fails: one label against three scores broadcasts, so the
    quiet call returns a dictionary, but the cross table of the verbose
    call cannot be built from arrays of two lengths and the call raises
    [ValueError]. *)
Lemma evaluate_verbose_raises_on_one_label :
  let p := answering "moon" [Finite (9 # 10); Finite (1 # 5); Finite (4 # 5)] in
  let loud := evaluate p moon_points [1] true empty_world in
  let quiet := evaluate p moon_points [1] false empty_world in
  (∃ d, quiet.1 = Returned d ∧
     d !! "TP" = Some (PyInt 2) ∧ d !! "FN" = Some (PyInt 1)) ∧
  loud.1 = Raised ValueError ∧
  loud.1 ≠ quiet.1.
Proof.
  cbv zeta. split; [|split].
  - eexists. split; [reflexivity|]. by vm_compute.
  - reflexivity.
  - rewrite !evaluate_run. by vm_compute.
Qed.

(** C6, as the code has it: for labels in {0,1} with at least one 0 and one
    1, if every rounded prediction is its label then recall, precision and
    accuracy are 1, and if every rounded prediction is the other class (0
    for the label 1, 1 for the label 0) then all three are 0. *)
Theorem evaluate_extremes p X labels verbose w :
  Forall is_label labels → 0 ∈ labels → 1 ∈ labels →
  (rounded p X = label_as_float <$> labels →
   ∃ d, (evaluate p X labels verbose w).1 = Returned d ∧
     d !! "Recall" = Some (PyFloat (Finite 1)) ∧
     d !! "Precision" = Some (PyFloat (Finite 1)) ∧
     d !! "Accuracy" = Some (PyFloat (Finite 1))) ∧
  (rounded p X = opposite_label <$> labels →
   ∃ d, (evaluate p X labels verbose w).1 = Returned d ∧
     d !! "Recall" = Some (PyFloat (Finite 0)) ∧
     d !! "Precision" = Some (PyFloat (Finite 0)) ∧
     d !! "Accuracy" = Some (PyFloat (Finite 0))).
Proof.
  intros Hl H0 H1.
  pose proof (occurrences_pos 0 labels H0) as Hzeros.
  pose proof (occurrences_pos 1 labels H1) as Hones.
  split; intros Hpreds; rewrite evaluate_run, Hpreds;
    rewrite confusion_same_length, pd_crosstab_same_length
      by (by rewrite !length_fmap);
    eexists; (split; [by destruct verbose|]).
  - rewrite all_correct_tp, all_correct_fp, all_correct_tn, all_correct_fn
      by done.
    match goal with
    | |- context [report ?a ?b ?c ?d] =>
        destruct (report_lookup a b c d) as (_ & _ & _ & _ & -> & -> & ->)
    end.
    rewrite !Z.add_0_r, !np_true_divide_self by lia. done.
  - rewrite all_wrong_tp, all_wrong_fp, all_wrong_tn, all_wrong_fn by done.
    match goal with
    | |- context [report ?a ?b ?c ?d] =>
        destruct (report_lookup a b c d) as (_ & _ & _ & _ & -> & -> & ->)
    end.
    rewrite !np_true_divide_zero by lia. done.
Qed.

Lemma evaluate_extremes_witness :
  let labels := [1; 0; 1; 1] in
  let good := answering "moon" [Finite (9 # 10); Finite (1 # 5); Finite (4 # 5);
                                Finite (7 # 10)] in
  let bad := answering "moon" [Finite (1 # 10); Finite (4 # 5); Finite (1 # 2);
                               Finite (3 # 10)] in
  (Forall is_label labels ∧ 0 ∈ labels ∧ 1 ∈ labels ∧
   rounded good moon_points = label_as_float <$> labels ∧
   rounded bad moon_points = opposite_label <$> labels) ∧
  (∃ d, (evaluate good moon_points labels false empty_world).1 = Returned d ∧
     d !! "Recall" = Some (PyFloat (Finite 1)) ∧
     d !! "Precision" = Some (PyFloat (Finite 1)) ∧
     d !! "Accuracy" = Some (PyFloat (Finite 1))) ∧
  (∃ d, (evaluate bad moon_points labels false empty_world).1 = Returned d ∧
     d !! "Recall" = Some (PyFloat (Finite 0)) ∧
     d !! "Precision" = Some (PyFloat (Finite 0)) ∧
     d !! "Accuracy" = Some (PyFloat (Finite 0))).
Proof.
  assert (Hl : Forall is_label [1; 0; 1; 1])
    by (repeat constructor; by (left + right)).
  assert (H0 : 0 ∈ [1; 0; 1; 1]) by (apply list_elem_of_In; simpl; auto).
  assert (H1 : 1 ∈ [1; 0; 1; 1]) by (apply list_elem_of_In; simpl; auto).
  split; [by repeat split|]. split.
  - refine (proj1 (evaluate_extremes _ _ _ _ _ Hl H0 H1) _). reflexivity.
  - refine (proj2 (evaluate_extremes _ _ _ _ _ Hl H0 H1) _). reflexivity.
Defined.

(** C6 as stated fails: the rounded predictions 2 and 1 differ from the
    labels 1 and 0, the denominators TP + FN and TP + FP are 2, and recall
    and precision are 1/2. *)
Lemma evaluate_all_different_not_zero :
  let p := answering "moon" [Finite 2; Finite 1] in
  let labels := [1; 0] in
  Forall is_label labels ∧ 0 ∈ labels ∧ 1 ∈ labels ∧
  Forall2 (λ l r, r ≠ label_as_float l) labels (rounded p moon_points) ∧
  ∃ d, (evaluate p moon_points labels false empty_world).1 = Returned d ∧
    d !! "TP" = Some (PyInt 1) ∧ d !! "FP" = Some (PyInt 1) ∧
    d !! "FN" = Some (PyInt 1) ∧
    d !! "Recall" = Some (PyFloat (Finite (1 # 2))) ∧
    d !! "Precision" = Some (PyFloat (Finite (1 # 2))) ∧
    d !! "Accuracy" = Some (PyFloat (Finite (1 # 3))).
Proof.
  cbv zeta. split; [repeat constructor; by (left + right)|].
  split; [apply list_elem_of_In; simpl; auto|].
  split; [apply list_elem_of_In; simpl; auto|].
  split; [by repeat constructor|].
  eexists. split; [reflexivity|]. by vm_compute.
Qed.

(** ** The file tree under [mkdirs] *)

Lemma grown_along_refl cs q o : grown_along cs q o o.
Proof. destruct o as [[c|es]|]; simpl; eauto. Qed.

Lemma lookup_fresh_dirs cs q :
  lookup_path q (fresh_dirs cs) = None ∨
  (q `prefix_of` cs ∧ ∃ es, lookup_path q (fresh_dirs cs) = Some (Dir es)).
Proof.
  revert q. induction cs as [|c cs IH]; intros [|d q]; simpl.
  - right. split; [done|]. by eexists.
  - left. by rewrite lookup_empty.
  - right. split; [apply prefix_nil|]. by eexists.
  - destruct (decide (c = d)) as [->|Hne].
    + rewrite lookup_singleton_eq. simpl.
      destruct (IH q) as [Hnone|[Hpre Hdir]]; [by left|right].
      split; [by apply prefix_cons|done].
    + left. by rewrite lookup_singleton_ne.
Qed.

Lemma lookup_fresh_dirs_target cs : ∃ es, lookup_path cs (fresh_dirs cs) = Some (Dir es).
Proof.
  induction cs as [|c cs IH]; simpl; [by eexists|].
  by rewrite lookup_singleton_eq.
Qed.

Lemma mkdirs_grows cs t t' q :
  mkdirs cs t = Returned t' →
  grown_along cs q (lookup_path q t) (lookup_path q t').
Proof.
  revert t t' q. induction cs as [|c cs IH]; intros t t' q Hmk; [done|].
  destruct t as [content|es]; [done|]. simpl in Hmk.
  destruct (es !! c) as [child|] eqn:Hc.
  - destruct (mkdirs cs child) as [child'|e] eqn:Hchild; [|done].
    injection Hmk as <-.
    destruct q as [|d q]; simpl; [by eexists|].
    destruct (decide (c = d)) as [<-|Hne].
    + rewrite lookup_insert_eq, Hc. simpl.
      specialize (IH child child' q Hchild).
      destruct (lookup_path q child) as [[content|es']|]; simpl in *; [done..|].
      destruct IH as [Hnone|[Hpre Hdir]]; [by left|right].
      split; [by apply prefix_cons|done].
    + rewrite lookup_insert_ne by done. apply grown_along_refl.
  - injection Hmk as <-.
    destruct q as [|d q]; simpl; [by eexists|].
    destruct (decide (c = d)) as [<-|Hne].
    + rewrite lookup_insert_eq, Hc. simpl.
      destruct (lookup_fresh_dirs cs q) as [Hnone|[Hpre Hdir]]; [by left|right].
      split; [by apply prefix_cons|done].
    + rewrite lookup_insert_ne by done. apply grown_along_refl.
Qed.

Lemma mkdirs_target cs t t' :
  mkdirs cs t = Returned t' → ∃ es, lookup_path cs t' = Some (Dir es).
Proof.
  revert t t'. induction cs as [|c cs IH]; intros t t' Hmk; [done|].
  destruct t as [content|es]; [done|]. simpl in Hmk.
  destruct (es !! c) as [child|] eqn:Hc.
  - destruct (mkdirs cs child) as [child'|e] eqn:Hchild; [|done].
    injection Hmk as <-. simpl. rewrite lookup_insert_eq. simpl. eauto.
  - injection Hmk as <-. simpl. rewrite lookup_insert_eq. simpl.
    apply lookup_fresh_dirs_target.
Qed.

(** ** The properties of [make_csv] *)

Lemma make_csv_run x y filename data_dir w :
  make_csv x y filename data_dir w =
  let message := Text ((("Path created: " +:+ data_dir) +:+ "/") +:+ filename) in
  match (os_path_exists data_dir w).1 with
  | Returned true => (Returned (), with_stdout w [message])
  | _ =>
      match os_makedirs data_dir w with
      | (Returned _, w') => (Returned (), with_stdout w' [message])
      | (Raised e, w') => (Raised e, w')
      end
  end.
Proof.
  unfold make_csv, mbind, py_bind, os_path_exists. cbn [fst].
  destruct (if decide (data_dir = EmptyString) then false else _);
    cbn [negb]; [done|].
  by destruct (os_makedirs data_dir w) as [[[]|e] w'].
Qed.

(** Whatever [make_csv] is given, every file of the tree afterwards was
    there before, with the same content. *)
Lemma make_csv_adds_no_file x y filename data_dir w q content :
  lookup_path q (files (make_csv x y filename data_dir w).2) = Some (File content) →
  lookup_path q (files w) = Some (File content).
Proof.
  rewrite make_csv_run. cbv zeta.
  destruct (os_path_exists data_dir w).1 as [[|]|e]; [done|..];
    unfold os_makedirs;
    (destruct (decide (data_dir = EmptyString)); [done|]);
    (destruct (mkdirs (components data_dir) (files w)) as [t|e'] eqn:Hmk; [|done]);
    simpl; intros Hq;
    pose proof (mkdirs_grows _ _ _ q Hmk) as Hgrow; rewrite Hq in Hgrow;
    (destruct (lookup_path q (files w)) as [[c|es]|]; simpl in Hgrow;
     [done| by destruct Hgrow | by destruct Hgrow as [|[_ []]]]).
Qed.

(** C10, as the code has it: whenever [data_dir] is there already or
    [os.makedirs] creates it, [make_csv] returns [None] after printing
    ['Path created: <data_dir>/<filename>'] and nothing else; a path that is
    there stays untouched; otherwise [data_dir] becomes a directory, the
    only new nodes of the tree are directories on the way to [data_dir],
    and every file is as it was.  No file is written. *)
Theorem make_csv_effect x y filename data_dir w :
  (os_path_exists data_dir w).1 = Returned true ∨
  (os_makedirs data_dir w).1 = Returned () →
  let run := make_csv x y filename data_dir w in
  run.1 = Returned () ∧
  stdout run.2 =
    stdout w ++ [Text ((("Path created: " +:+ data_dir) +:+ "/") +:+ filename)] ∧
  endpoints run.2 = endpoints w ∧ api_log run.2 = api_log w ∧
  pending_faults run.2 = pending_faults w ∧
  (if (os_path_exists data_dir w).1 is Returned true then files run.2 = files w
   else ∃ es, lookup_path (components data_dir) (files run.2) = Some (Dir es)) ∧
  ∀ q, grown_along (components data_dir) q
         (lookup_path q (files w)) (lookup_path q (files run.2)).
Proof.
  intros Hok. cbv zeta. rewrite make_csv_run. cbv zeta.
  destruct (os_path_exists data_dir w).1 as [[|]|e] eqn:Hex.
  - simpl. repeat split; try done. intros q. apply grown_along_refl.
  - destruct Hok as [Hok|Hok]; [done|]. revert Hok. unfold os_makedirs.
    destruct (decide (data_dir = EmptyString)); [done|].
    destruct (mkdirs (components data_dir) (files w)) as [t|e'] eqn:Hmk; [|done].
    intros _. simpl. repeat split; try done.
    + by eapply mkdirs_target.
    + intros q. by eapply mkdirs_grows.
  - by destruct Hok.
Qed.

Lemma make_csv_effect_witness :
  let w := empty_world in
  let run := make_csv moon_points [1; 0] "train.csv" "data_moon" w in
  (os_makedirs "data_moon" w).1 = Returned () ∧
  run.1 = Returned () ∧
  stdout run.2 = stdout w ++ [Text "Path created: data_moon/train.csv"] ∧
  endpoints run.2 = endpoints w ∧ api_log run.2 = api_log w ∧
  pending_faults run.2 = pending_faults w ∧
  (if (os_path_exists "data_moon" w).1 is Returned true then files run.2 = files w
   else ∃ es, lookup_path (components "data_moon") (files run.2) = Some (Dir es)) ∧
  ∀ q, grown_along (components "data_moon") q
         (lookup_path q (files w)) (lookup_path q (files run.2)).
Proof.
  split; [reflexivity|].
  apply (make_csv_effect moon_points [1; 0] "train.csv" "data_moon" empty_world).
  right. reflexivity.
Defined.

(** C10 as stated fails: the empty string is a [data_dir] on which
    [os.makedirs] raises; [make_csv] raises with it and prints nothing. *)
Lemma make_csv_empty_data_dir :
  make_csv moon_points [1; 0] "train.csv" "" empty_world =
  (Raised FileNotFoundError, empty_world).
Proof. reflexivity. Qed.

(** C8, on the code: after [make_csv] on a split, in an empty working
    directory, the directory is there and the message is printed, but there
    is no file [data_moon/train.csv] to read back. *)
Theorem make_csv_leaves_no_csv :
  let run := make_csv moon_points [1; 0] "train.csv" "data_moon" empty_world in
  run.1 = Returned () ∧
  stdout run.2 = [Text "Path created: data_moon/train.csv"] ∧
  lookup_path (components "data_moon") (files run.2) = Some (Dir ∅) ∧
  lookup_path (components "data_moon/train.csv") (files run.2) = None ∧
  (read_file "data_moon/train.csv" run.2).1 = Raised FileNotFoundError.
Proof. cbv zeta. repeat split; by vm_compute. Qed.

(** ** The properties of [delete_endpoint] *)

(** C7: [delete_endpoint] is best effort.  It calls the service once, with
    the predictor's endpoint name; whatever the call does, it returns
    normally; after a failed call it has printed ['Already deleted: <name>'],
    after a successful one ['Deleted <name>'], and changed nothing else. *)
Theorem delete_endpoint_best_effort predictor w :
  let name := endpoint predictor in
  let call := boto3_delete_endpoint name w in
  let run := delete_endpoint predictor w in
  api_log call.2 = api_log w ++ [DeleteEndpoint name] ∧
  run.1 = Returned () ∧
  run.2 = with_stdout call.2
            [Text (match call.1 with
                   | Returned _ => "Deleted " +:+ name
                   | Raised _ => "Already deleted: " +:+ name
                   end)].
Proof.
  cbv zeta. unfold delete_endpoint, try_except, mbind, py_bind.
  split.
  - unfold boto3_delete_endpoint.
    destruct (pending_faults w) as [|[e|] later]; try done;
      by destruct (decide (endpoint predictor ∈ endpoints w)).
  - by destruct (boto3_delete_endpoint (endpoint predictor) w) as [[[]|e] w'].
Qed.

(** ** Further properties of [evaluate]: shapes *)

Lemma broadcast_mismatch {A B C : Type} (f : A → B → C) a b :
  length a ≠ length b → length a ≠ 1%nat → length b ≠ 1%nat →
  broadcast f a b = Raised ValueError.
Proof.
  intros Hne Ha Hb. unfold broadcast.
  apply Nat.eqb_neq in Hne. rewrite Hne.
  by destruct a as [|x [|x' a]], b as [|y [|y' b]].
Qed.

Lemma broadcast_scalar_r {A B C : Type} (f : A → B → C) a y :
  broadcast f a [y] = Returned (zip_with f a (replicate (length a) y)).
Proof.
  rewrite zip_with_replicate_r_eq by done. unfold broadcast.
  by destruct a as [|x [|x' a]].
Qed.

Lemma confusion_scalar labels r :
  confusion labels [r] = confusion labels (replicate (length labels) r).
Proof.
  rewrite (confusion_same_length labels (replicate _ _))
    by apply length_replicate.
  unfold confusion, np_logical_and, np_rsub1, count_and.
  rewrite fmap_replicate. cbn [fmap list_fmap].
  rewrite !broadcast_scalar_r, !length_fmap. reflexivity.
Qed.

(** When the predictions and the labels have different lengths and neither
    is a single element, the first mask does not broadcast: [evaluate]
    raises [ValueError] and has printed nothing, verbose or not. *)
Theorem evaluate_length_mismatch p X labels verbose w :
  length (predict p X) ≠ length labels →
  length (predict p X) ≠ 1%nat → length labels ≠ 1%nat →
  evaluate p X labels verbose w = (Raised ValueError, w).
Proof.
  intros Hne Hp Hl. rewrite evaluate_run.
  unfold confusion, np_logical_and.
  rewrite (broadcast_mismatch _ labels (rounded p X));
    [reflexivity|..]; rewrite ?length_rounded; lia.
Qed.

Lemma evaluate_length_mismatch_witness :
  let p := answering "moon" moon_scores in
  (length (predict p moon_points) ≠ length [1; 0] ∧
   length (predict p moon_points) ≠ 1%nat ∧ length [1; 0] ≠ 1%nat) ∧
  evaluate p moon_points [1; 0] true empty_world = (Raised ValueError, empty_world).
Proof.
  cbv zeta.
  assert (H1 : length (predict (answering "moon" moon_scores) moon_points)
               ≠ length [1; 0]) by (simpl; lia).
  assert (H2 : length (predict (answering "moon" moon_scores) moon_points)
               ≠ 1%nat) by (simpl; lia).
  assert (H3 : length [1; 0] ≠ 1%nat) by (simpl; lia).
  split; [done|].
  exact (evaluate_length_mismatch _ moon_points [1; 0] true empty_world H1 H2 H3).
Defined.

(** A predictor that answers a single score is not an error: the score is
    broadcast, and [evaluate] returns what it returns when the same score is
    given once per label. *)
Theorem evaluate_single_score_broadcast p X labels w s :
  predict p X = [s] →
  (evaluate p X labels false w).1 =
  (evaluate (answering (endpoint p) (replicate (length labels) s)) X labels
            false w).1.
Proof.
  intros Hs. rewrite !evaluate_run. unfold rounded. rewrite Hs.
  cbn [answering predict fmap list_fmap]. rewrite fmap_replicate.
  rewrite confusion_scalar.
  by destruct (confusion labels _) as [[[[tp fp] tn] fn]|e].
Qed.

Lemma evaluate_single_score_broadcast_witness :
  let p := answering "moon" [Finite (9 # 10)] in
  predict p moon_points = [Finite (9 # 10)] ∧
  (evaluate p moon_points [1; 0; 1] false empty_world).1 =
  (evaluate (answering "moon" (replicate 3 (Finite (9 # 10)))) moon_points
            [1; 0; 1] false empty_world).1.
Proof.
  cbv zeta. split; [reflexivity|].
  exact (evaluate_single_score_broadcast (answering "moon" [Finite (9 # 10)])
           moon_points [1; 0; 1] empty_world (Finite (9 # 10)) eq_refl).
Defined.

(** ** Further properties of [evaluate]: scores outside the rounding range *)

Lemma complement_zero q : Qeq_bool (1 - q) 0 = Qeq_bool q 1.
Proof.
  destruct (Qeq_bool q 1) eqn:E.
  - apply Qeq_bool_iff in E. apply Qeq_bool_iff. lra.
  - apply Qeq_bool_neq in E.
    destruct (Qeq_bool (1 - q) 0) eqn:E'; [|done].
    apply Qeq_bool_iff in E'. exfalso. apply E. lra.
Qed.

(** A position with a label of {0,1} is counted once, and once more when
    its rounded prediction is neither 0 nor 1. *)
Lemma masks_per_position l r :
  is_label l →
  Z.b2z (nonzero l && nonzero r) + Z.b2z (nonzero (one_minus l) && nonzero r)
  + Z.b2z (nonzero (one_minus l) && nonzero (one_minus r))
  + Z.b2z (nonzero l && nonzero (one_minus r)) = 1 + Z.b2z (stray r).
Proof.
  intros Hl. unfold stray.
  assert (Hlabel : nonzero (one_minus l) = negb (nonzero l))
    by (by destruct Hl as [-> | ->]).
  rewrite Hlabel.
  destruct r as [q| |s]; cbn [nonzero one_minus float64_scalar equals].
  - rewrite complement_zero. change (inject_Z 0) with 0%Q.
    change (inject_Z 1) with 1%Q.
    destruct (Qeq_bool q 0) eqn:E0, (Qeq_bool q 1) eqn:E1;
      try (by destruct (nonzero l)).
    apply Qeq_bool_iff in E0, E1. exfalso. lra.
  - by destruct (nonzero l).
  - by destruct (nonzero l).
Qed.

Lemma counts_overcount labels preds :
  Forall is_label labels → length preds = length labels →
  count_and labels preds + count_and (np_rsub1 labels) preds
  + count_and (np_rsub1 labels) (np_rsub1 preds)
  + count_and labels (np_rsub1 preds)
  = Z.of_nat (length labels) + np_sum (stray <$> preds).
Proof.
  unfold count_and, np_rsub1. intros Hl. revert preds.
  induction Hl as [|l labels Hl Hls IH]; intros [|r preds] Hlen; try done.
  injection Hlen as Hlen. specialize (IH preds Hlen).
  pose proof (masks_per_position l r Hl) as Hone.
  cbn [fmap list_fmap zip_with np_sum length] in *. lia.
Qed.

(** For labels in {0,1} and as many scores of any value, the four counts
    add up to the number of examples plus the number of rounded predictions
    that are neither 0 nor 1: each such prediction is counted twice. *)
Theorem evaluate_counts_overcount p X labels verbose w :
  Forall is_label labels →
  length (predict p X) = length labels →
  ∃ d tp fp tn fn, (evaluate p X labels verbose w).1 = Returned d ∧
    d !! "TP" = Some (PyInt tp) ∧ d !! "FP" = Some (PyInt fp) ∧
    d !! "TN" = Some (PyInt tn) ∧ d !! "FN" = Some (PyInt fn) ∧
    tp + fp + tn + fn =
      Z.of_nat (length labels) + np_sum (stray <$> rounded p X).
Proof.
  intros Hl Hlen. rewrite evaluate_same_length by done. cbv zeta.
  set (preds := rounded p X) in *.
  eexists _, _, _, _, _. split; [done|].
  destruct (report_lookup (count_and labels preds)
              (count_and (np_rsub1 labels) preds)
              (count_and (np_rsub1 labels) (np_rsub1 preds))
              (count_and labels (np_rsub1 preds)))
    as (HTP & HFP & HTN & HFN & _).
  repeat (split; [eassumption|]).
  apply counts_overcount; [done|]. unfold preds. by rewrite length_rounded.
Qed.

Lemma evaluate_counts_overcount_witness :
  let p := answering "moon" [Finite 2; Finite (1 # 5); NaN] in
  let labels := [1; 0; 1] in
  (Forall is_label labels ∧ length (predict p moon_points) = length labels) ∧
  ∃ d tp fp tn fn,
    (evaluate p moon_points labels false empty_world).1 = Returned d ∧
    d !! "TP" = Some (PyInt tp) ∧ d !! "FP" = Some (PyInt fp) ∧
    d !! "TN" = Some (PyInt tn) ∧ d !! "FN" = Some (PyInt fn) ∧
    tp + fp + tn + fn =
      Z.of_nat (length labels) + np_sum (stray <$> rounded p moon_points).
Proof.
  cbv zeta.
  assert (Hl : Forall is_label [1; 0; 1])
    by (repeat constructor; by (left + right)).
  split; [by split|].
  exact (evaluate_counts_overcount
           (answering "moon" [Finite 2; Finite (1 # 5); NaN]) moon_points
           [1; 0; 1] false empty_world Hl eq_refl).
Defined.

(** The rounded predictions are all 0 or 1 exactly when every score lies
    from -0.5 up to, not including, 1.5. *)
Theorem rounded_bits_iff_in_range p X :
  Forall is_bit (rounded p X) ↔ Forall in_rounding_range (predict p X).
Proof.
  unfold rounded. rewrite Forall_fmap. apply Forall_iff.
  intros x. symmetry. apply np_round_bit.
Qed.

Lemma round_half_even_threshold q :
  (- (1 # 2) <= q)%Q → (q < 3 # 2)%Q →
  round_half_even q = if Qlt_le_dec (1 # 2) q then 1 else 0.
Proof.
  intros Hlo Hhi. unfold round_half_even.
  pose proof (Qfloor_le q) as Hfl. pose proof (Qlt_floor q) as Hfu.
  set (f := Qfloor q) in *. clearbody f.
  assert (Hf : f = -1 ∨ f = 0 ∨ f = 1).
  { assert (inject_Z f < 3 # 2)%Q as H1 by (eapply Qle_lt_trans; eauto).
    assert (- (1 # 2) < inject_Z (f + 1))%Q as H2 by (eapply Qle_lt_trans; eauto).
    unfold Qlt in H1, H2. simpl in H1, H2. lia. }
  destruct (Qlt_le_dec (1 # 2) q) as [Hq|Hq];
    destruct (Qcompare_spec (q - inject_Z f) (1 # 2)) as [Hc|Hc|Hc];
    destruct Hf as [-> | [-> | ->]]; simpl; auto; exfalso; qlra.
Qed.

(** The decision threshold is strict: in the rounding range a score counts
    as class 1 exactly when it is above 0.5, and a score of exactly 0.5 as
    class 0. *)
Theorem np_round_threshold q :
  in_rounding_range (Finite q) →
  (np_round (Finite q) = Finite 1 ↔ (1 # 2 < q)%Q) ∧
  (np_round (Finite q) = Finite 0 ↔ (q <= 1 # 2)%Q).
Proof.
  intros [Hlo Hhi]. simpl.
  rewrite (round_half_even_threshold q Hlo Hhi).
  destruct (Qlt_le_dec (1 # 2) q) as [Hq|Hq]; (split; split; try done).
  - intros H. exfalso. lra.
  - intros H. exfalso. lra.
Qed.

Lemma np_round_threshold_witness :
  in_rounding_range (Finite (1 # 2)) ∧
  (np_round (Finite (1 # 2)) = Finite 1 ↔ (1 # 2 < 1 # 2)%Q) ∧
  (np_round (Finite (1 # 2)) = Finite 0 ↔ (1 # 2 <= 1 # 2)%Q).
Proof.
  assert (H : in_rounding_range (Finite (1 # 2))) by (by vm_compute).
  split; [exact H|]. exact (np_round_threshold (1 # 2) H).
Defined.

(** ** Further properties of [evaluate]: the rates *)

Lemma np_true_divide_unit a b :
  0 ≤ a → a ≤ b → 0 < b →
  ∃ q, np_true_divide a b = Finite q ∧ (0 <= q)%Q ∧ (q <= 1)%Q.
Proof.
  intros Ha Hab Hb. unfold np_true_divide.
  destruct (Z.eqb_spec b 0) as [->|_]; [lia|].
  eexists. split; [done|].
  assert (Hb' : (0 < inject_Z b)%Q) by (rewrite (Zlt_Qlt 0 b) in Hb; exact Hb).
  rewrite Qred_correct. split.
  - apply Qle_shift_div_l; [done|]. rewrite Qmult_0_l.
    rewrite (Zle_Qle 0 a) in Ha. exact Ha.
  - apply Qle_shift_div_r; [done|]. rewrite Qmult_1_l.
    rewrite (Zle_Qle a b) in Hab. exact Hab.
Qed.

Lemma occurrences_absent v labels : v ∉ labels → occurrences v labels = 0.
Proof.
  unfold occurrences. induction labels as [|l labels IH]; intros Hv; [done|].
  apply not_elem_of_cons in Hv as [Hne Hv]. cbn [fmap list_fmap np_sum].
  rewrite IH by done. destruct (Z.eqb_spec l v); [congruence|done].
Qed.

Lemma predicted_positives_pos preds :
  Finite 1 ∈ preds → 0 < predicted_positives preds.
Proof.
  unfold predicted_positives. induction preds as [|r preds IH]; intros Hin.
  - by apply elem_of_nil in Hin.
  - cbn [fmap list_fmap np_sum].
    pose proof (np_sum_nonneg (equals 1 <$> preds)) as Hnn.
    apply elem_of_cons in Hin as [<- | Hin]; [simpl; lia|].
    specialize (IH Hin). destruct (equals 1 r); simpl; lia.
Qed.

Lemma predicted_positives_absent preds :
  Forall is_bit preds → Finite 1 ∉ preds → predicted_positives preds = 0.
Proof.
  unfold predicted_positives. induction 1 as [|r preds Hr _ IH]; intros Hv; [done|].
  apply not_elem_of_cons in Hv as [Hne Hv]. cbn [fmap list_fmap np_sum].
  rewrite IH by done. by destruct Hr as [-> | ->].
Qed.

(** The positions with the label 1 are the true positives and the false
    negatives; the positions predicted 1 are the true and the false
    positives. *)
Lemma counts_by_label_and_prediction labels preds :
  Forall is_label labels → Forall is_bit preds → length preds = length labels →
  count_and labels preds + count_and labels (np_rsub1 preds)
    = occurrences 1 labels ∧
  count_and labels preds + count_and (np_rsub1 labels) preds
    = predicted_positives preds.
Proof.
  unfold count_and, np_rsub1, occurrences, predicted_positives.
  intros Hl. revert preds.
  induction Hl as [|l labels Hl Hls IH]; intros preds Hp Hlen.
  - by destruct preds.
  - destruct Hp as [|r preds Hr Hp]; [done|].
    injection Hlen as Hlen. destruct (IH preds Hp Hlen) as [IH1 IH2].
    cbn [fmap list_fmap zip_with np_sum] in *.
    split; destruct Hl as [-> | ->], Hr as [-> | ->];
      cbn [nonzero one_minus int64_scalar float64_scalar] in *; simpl; lia.
Qed.

(** For labels in {0,1} and as many scores in the rounding range: when
    some label is 1 the recall is a number of [0, 1]; when none is, it is
    [nan]. *)
Theorem evaluate_recall_range p X labels verbose w :
  Forall is_label labels →
  length (predict p X) = length labels →
  Forall in_rounding_range (predict p X) →
  ∃ d, (evaluate p X labels verbose w).1 = Returned d ∧
    (1 ∈ labels →
     ∃ q, d !! "Recall" = Some (PyFloat (Finite q)) ∧ (0 <= q)%Q ∧ (q <= 1)%Q) ∧
    (1 ∉ labels → d !! "Recall" = Some (PyFloat NaN)).
Proof.
  intros Hl Hlen Hrange.
  pose proof (rounded_bits p X Hrange) as Hbits.
  rewrite evaluate_same_length by done. cbv zeta.
  set (preds := rounded p X) in *.
  assert (Hlen' : length preds = length labels)
    by (unfold preds; by rewrite length_rounded).
  destruct (counts_by_label_and_prediction labels preds Hl Hbits Hlen')
    as [Hsplit _].
  pose proof (count_and_nonneg labels preds) as Htp.
  pose proof (count_and_nonneg labels (np_rsub1 preds)) as Hfn.
  eexists. split; [done|].
  match goal with
  | |- context [report ?a ?b ?c ?d] =>
      destruct (report_lookup a b c d) as (_ & _ & _ & _ & -> & _ & _)
  end.
  split; intros Hone.
  - pose proof (occurrences_pos 1 labels Hone) as Hpos.
    destruct (np_true_divide_unit (count_and labels preds)
                (count_and labels preds + count_and labels (np_rsub1 preds)))
      as (q & -> & Hq); [lia..|].
    by exists q.
  - pose proof (occurrences_absent 1 labels Hone) as Hzero.
    assert (count_and labels preds = 0) as -> by lia.
    assert (count_and labels (np_rsub1 preds) = 0) as -> by lia.
    done.
Qed.

Lemma evaluate_recall_range_witness :
  let p := answering "moon" moon_scores in
  let labels := [1; 0; 1; 1] in
  (Forall is_label labels ∧ length (predict p moon_points) = length labels ∧
   Forall in_rounding_range (predict p moon_points)) ∧
  ∃ d, (evaluate p moon_points labels false empty_world).1 = Returned d ∧
    (1 ∈ labels →
     ∃ q, d !! "Recall" = Some (PyFloat (Finite q)) ∧ (0 <= q)%Q ∧ (q <= 1)%Q) ∧
    (1 ∉ labels → d !! "Recall" = Some (PyFloat NaN)).
Proof.
  cbv zeta.
  assert (Hl : Forall is_label [1; 0; 1; 1])
    by (repeat constructor; by (left + right)).
  assert (Hr : Forall in_rounding_range moon_scores)
    by (repeat constructor; by vm_compute).
  split; [by repeat split|].
  exact (evaluate_recall_range (answering "moon" moon_scores) moon_points
           [1; 0; 1; 1] false empty_world Hl eq_refl Hr).
Defined.

(** For labels in {0,1} and as many scores in the rounding range: when
    some prediction rounds to 1 the precision is a number of [0, 1]; when
    none does, it is [nan]. *)
Theorem evaluate_precision_range p X labels verbose w :
  Forall is_label labels →
  length (predict p X) = length labels →
  Forall in_rounding_range (predict p X) →
  ∃ d, (evaluate p X labels verbose w).1 = Returned d ∧
    (Finite 1 ∈ rounded p X →
     ∃ q, d !! "Precision" = Some (PyFloat (Finite q)) ∧
          (0 <= q)%Q ∧ (q <= 1)%Q) ∧
    (Finite 1 ∉ rounded p X → d !! "Precision" = Some (PyFloat NaN)).
Proof.
  intros Hl Hlen Hrange.
  pose proof (rounded_bits p X Hrange) as Hbits.
  rewrite evaluate_same_length by done. cbv zeta.
  set (preds := rounded p X) in *.
  assert (Hlen' : length preds = length labels)
    by (unfold preds; by rewrite length_rounded).
  destruct (counts_by_label_and_prediction labels preds Hl Hbits Hlen')
    as [_ Hsplit].
  pose proof (count_and_nonneg labels preds) as Htp.
  pose proof (count_and_nonneg (np_rsub1 labels) preds) as Hfp.
  eexists. split; [done|].
  match goal with
  | |- context [report ?a ?b ?c ?d] =>
      destruct (report_lookup a b c d) as (_ & _ & _ & _ & _ & -> & _)
  end.
  split; intros Hone.
  - pose proof (predicted_positives_pos preds Hone) as Hpos.
    destruct (np_true_divide_unit (count_and labels preds)
                (count_and labels preds + count_and (np_rsub1 labels) preds))
      as (q & -> & Hq); [lia..|].
    by exists q.
  - pose proof (predicted_positives_absent preds Hbits Hone) as Hzero.
    assert (count_and labels preds = 0) as -> by lia.
    assert (count_and (np_rsub1 labels) preds = 0) as -> by lia.
    done.
Qed.

Lemma evaluate_precision_range_witness :
  let p := answering "moon" low_scores in
  let labels := [1; 0; 1] in
  (Forall is_label labels ∧ length (predict p moon_points) = length labels ∧
   Forall in_rounding_range (predict p moon_points)) ∧
  ∃ d, (evaluate p moon_points labels false empty_world).1 = Returned d ∧
    (Finite 1 ∈ rounded p moon_points →
     ∃ q, d !! "Precision" = Some (PyFloat (Finite q)) ∧
          (0 <= q)%Q ∧ (q <= 1)%Q) ∧
    (Finite 1 ∉ rounded p moon_points → d !! "Precision" = Some (PyFloat NaN)).
Proof.
  cbv zeta.
  assert (Hl : Forall is_label [1; 0; 1])
    by (repeat constructor; by (left + right)).
  assert (Hr : Forall in_rounding_range low_scores)
    by (repeat constructor; by vm_compute).
  split; [by repeat split|].
  exact (evaluate_precision_range (answering "moon" low_scores) moon_points
           [1; 0; 1] false empty_world Hl eq_refl Hr).
Defined.

(** For at least one label, all in {0,1}, and as many scores in the
    rounding range, the accuracy is a number of [0, 1], never [nan]. *)
Theorem evaluate_accuracy_range p X labels verbose w :
  labels ≠ [] →
  Forall is_label labels →
  length (predict p X) = length labels →
  Forall in_rounding_range (predict p X) →
  ∃ d q, (evaluate p X labels verbose w).1 = Returned d ∧
    d !! "Accuracy" = Some (PyFloat (Finite q)) ∧ (0 <= q)%Q ∧ (q <= 1)%Q.
Proof.
  intros Hne Hl Hlen Hrange.
  pose proof (rounded_bits p X Hrange) as Hbits.
  rewrite evaluate_same_length by done. cbv zeta.
  set (preds := rounded p X) in *.
  assert (Hlen' : length preds = length labels)
    by (unfold preds; by rewrite length_rounded).
  pose proof (counts_total labels preds Hl Hbits Hlen') as Htotal.
  pose proof (count_and_nonneg labels preds) as Htp.
  pose proof (count_and_nonneg (np_rsub1 labels) preds) as Hfp.
  pose proof (count_and_nonneg (np_rsub1 labels) (np_rsub1 preds)) as Htn.
  pose proof (count_and_nonneg labels (np_rsub1 preds)) as Hfn.
  assert (0 < Z.of_nat (length labels)) by (destruct labels; simpl; [done|lia]).
  match goal with
  | |- context [report ?a ?b ?c ?d] =>
      destruct (np_true_divide_unit (a + c) (a + b + c + d))
        as (q & Hq & Hbounds); [lia..|];
      destruct (report_lookup a b c d) as (_ & _ & _ & _ & _ & _ & Hacc)
  end.
  eexists _, q. split; [done|]. rewrite Hacc, Hq. done.
Qed.

Lemma evaluate_accuracy_range_witness :
  let p := answering "moon" moon_scores in
  let labels := [1; 0; 1; 1] in
  (labels ≠ [] ∧ Forall is_label labels ∧
   length (predict p moon_points) = length labels ∧
   Forall in_rounding_range (predict p moon_points)) ∧
  ∃ d q, (evaluate p moon_points labels false empty_world).1 = Returned d ∧
    d !! "Accuracy" = Some (PyFloat (Finite q)) ∧ (0 <= q)%Q ∧ (q <= 1)%Q.
Proof.
  cbv zeta.
  assert (Hne : [1; 0; 1; 1] ≠ ([] : list Z)) by done.
  assert (Hl : Forall is_label [1; 0; 1; 1])
    by (repeat constructor; by (left + right)).
  assert (Hr : Forall in_rounding_range moon_scores)
    by (repeat constructor; by vm_compute).
  split; [by repeat split|].
  exact (evaluate_accuracy_range (answering "moon" moon_scores) moon_points
           [1; 0; 1; 1] false empty_world Hne Hl eq_refl Hr).
Defined.

(** ** Further properties of [evaluate]: what is printed *)

(** With as many predictions as labels, the verbose call prints five times:
    the cross table of the labels against the rounded predictions, the
    recall, precision and accuracy it returns in the dictionary, and an
    empty line. *)
Theorem evaluate_prints_what_it_returns p X labels w :
  length (predict p X) = length labels →
  ∃ d recall precision accuracy,
    evaluate p X labels true w =
      (Returned d,
       with_stdout w
         [ Crosstab labels (rounded p X) ["actuals"] ["predictions"];
           Formatted (newline +:+ "{:<11} {:.3f}") "Recall:" recall;
           Formatted "{:<11} {:.3f}" "Precision:" precision;
           Formatted "{:<11} {:.3f}" "Accuracy:" accuracy;
           EmptyLine ]) ∧
    d !! "Recall" = Some (PyFloat recall) ∧
    d !! "Precision" = Some (PyFloat precision) ∧
    d !! "Accuracy" = Some (PyFloat accuracy).
Proof.
  intros Hlen. rewrite evaluate_same_length by done. cbv zeta.
  eexists _, _, _, _. split; [reflexivity|].
  match goal with
  | |- context [report ?a ?b ?c ?d] =>
      destruct (report_lookup a b c d) as (_ & _ & _ & _ & -> & -> & ->)
  end.
  done.
Qed.

Lemma evaluate_prints_what_it_returns_witness :
  let p := answering "moon" moon_scores in
  let labels := [1; 0; 1; 1] in
  length (predict p moon_points) = length labels ∧
  ∃ d recall precision accuracy,
    evaluate p moon_points labels true empty_world =
      (Returned d,
       with_stdout empty_world
         [ Crosstab labels (rounded p moon_points) ["actuals"] ["predictions"];
           Formatted (newline +:+ "{:<11} {:.3f}") "Recall:" recall;
           Formatted "{:<11} {:.3f}" "Precision:" precision;
           Formatted "{:<11} {:.3f}" "Accuracy:" accuracy;
           EmptyLine ]) ∧
    d !! "Recall" = Some (PyFloat recall) ∧
    d !! "Precision" = Some (PyFloat precision) ∧
    d !! "Accuracy" = Some (PyFloat accuracy).
Proof.
  cbv zeta. split; [reflexivity|].
  exact (evaluate_prints_what_it_returns (answering "moon" moon_scores)
           moon_points [1; 0; 1; 1] empty_world eq_refl).
Defined.

(** ** Further properties of [delete_endpoint] *)

(** A failure that is not a missing endpoint is reported the same way: when
    the connection fails, [delete_endpoint] returns normally and prints
    ['Already deleted: <name>'], and the service still has every endpoint
    it had, the named one included. *)
Theorem delete_endpoint_masks_connection_failure predictor w e later :
  pending_faults w = Some e :: later →
  let run := delete_endpoint predictor w in
  run.1 = Returned () ∧
  stdout run.2 = stdout w ++ [Text ("Already deleted: " +:+ endpoint predictor)] ∧
  endpoints run.2 = endpoints w.
Proof.
  intros Hfault. cbv zeta.
  unfold delete_endpoint, try_except, mbind, py_bind, boto3_delete_endpoint.
  by rewrite Hfault.
Qed.

Lemma delete_endpoint_masks_connection_failure_witness :
  let p := answering "moon" moon_scores in
  let run := delete_endpoint p offline_world in
  pending_faults offline_world = [Some EndpointConnectionError] ∧
  run.1 = Returned () ∧
  stdout run.2 = stdout offline_world ++ [Text ("Already deleted: " +:+ endpoint p)] ∧
  endpoints run.2 = endpoints offline_world.
Proof.
  cbv zeta. split; [reflexivity|].
  exact (delete_endpoint_masks_connection_failure (answering "moon" moon_scores)
           offline_world EndpointConnectionError [] eq_refl).
Defined.

(** Deleting twice is safe: with a working connection, after the first call
    the endpoint is gone from the service whatever was there before, and
    the second call returns normally, prints ['Already deleted: <name>']
    and changes nothing at the service. *)
Theorem delete_endpoint_twice predictor w :
  pending_faults w = [] →
  let first := delete_endpoint predictor w in
  let second := delete_endpoint predictor first.2 in
  (endpoint predictor ∉ endpoints first.2) ∧
  second.1 = Returned () ∧
  stdout second.2 =
    stdout first.2 ++ [Text ("Already deleted: " +:+ endpoint predictor)] ∧
  endpoints second.2 = endpoints first.2.
Proof.
  intros Hfault. cbv zeta.
  unfold delete_endpoint, try_except, mbind, py_bind, boto3_delete_endpoint.
  rewrite Hfault. cbn [tail].
  assert (Hgone : endpoint predictor ∉ endpoints w ∖ {[endpoint predictor]}).
  { intros [_ Hnot]%elem_of_difference. apply Hnot. by apply elem_of_singleton. }
  destruct (decide (endpoint predictor ∈ endpoints w)) as [Hin|Hout];
    cbn [fst snd print with_stdout pending_faults endpoints stdout api_log
         files tail];
    (destruct (decide (endpoint predictor
                       ∈ endpoints w ∖ {[endpoint predictor]})); [done|]);
    cbn [fst snd print with_stdout pending_faults endpoints stdout api_log
         files];
    repeat split; try done;
    apply set_eq; intros x; rewrite !elem_of_difference; tauto.
Qed.

Lemma delete_endpoint_twice_witness :
  let p := answering "moon" moon_scores in
  let first := delete_endpoint p deployed_world in
  let second := delete_endpoint p first.2 in
  pending_faults deployed_world = [] ∧
  (endpoint p ∉ endpoints first.2) ∧
  second.1 = Returned () ∧
  stdout second.2 = stdout first.2 ++ [Text ("Already deleted: " +:+ endpoint p)] ∧
  endpoints second.2 = endpoints first.2.
Proof.
  cbv zeta. split; [reflexivity|].
  exact (delete_endpoint_twice (answering "moon" moon_scores) deployed_world
           eq_refl).
Defined.

(** ** Further properties of [make_csv] *)

Lemma lookup_path_app q k t :
  lookup_path (q ++ k) t = lookup_path q t ≫= lookup_path k.
Proof.
  revert t. induction q as [|c q IH]; intros t; [done|].
  destruct t as [content|es]; [done|]. simpl.
  destruct (es !! c) as [child|]; simpl; [apply IH|done].
Qed.

Lemma mkdirs_target_empty cs t t' :
  mkdirs cs t = Returned t' → lookup_path cs t' = Some (Dir ∅).
Proof.
  revert t t'. induction cs as [|c cs IH]; intros t t' Hmk; [done|].
  destruct t as [content|es]; [done|]. simpl in Hmk.
  destruct (es !! c) as [child|] eqn:Hc.
  - destruct (mkdirs cs child) as [child'|e] eqn:Hchild; [|done].
    injection Hmk as <-. simpl. rewrite lookup_insert_eq. simpl. eauto.
  - injection Hmk as <-. simpl. rewrite lookup_insert_eq. simpl.
    clear. induction cs as [|c' cs IH]; simpl; [done|].
    by rewrite lookup_singleton_eq.
Qed.

(** Whatever [make_csv] is given, and whether it returns or raises, the
    tree afterwards is the tree before, grown along [data_dir]. *)
Lemma make_csv_grows x y filename data_dir w q :
  grown_along (components data_dir) q
    (lookup_path q (files w))
    (lookup_path q (files (make_csv x y filename data_dir w).2)).
Proof.
  rewrite make_csv_run. cbv zeta.
  destruct (os_path_exists data_dir w).1 as [[|]|e];
    [apply grown_along_refl|..];
    unfold os_makedirs;
    (destruct (decide (data_dir = EmptyString)); [apply grown_along_refl|]);
    (destruct (mkdirs (components data_dir) (files w)) as [t|e'] eqn:Hmk;
     [|apply grown_along_refl]);
    simpl; by eapply mkdirs_grows.
Qed.

(** [make_csv] never writes, changes or removes a file: for every input,
    the files of the tree and their contents are the same before and after
    the call. *)
Theorem make_csv_keeps_files x y filename data_dir w q content :
  lookup_path q (files (make_csv x y filename data_dir w).2) = Some (File content)
  ↔ lookup_path q (files w) = Some (File content).
Proof.
  pose proof (make_csv_grows x y filename data_dir w q) as Hgrow.
  destruct (lookup_path q (files w)) as [[c|es]|]; simpl in Hgrow.
  - by rewrite Hgrow.
  - destruct Hgrow as [es' ->]. done.
  - destruct Hgrow as [->|[_ [es' ->]]]; done.
Qed.

(** When [data_dir] is not there and [make_csv] returns, it has created
    [data_dir] as an empty directory, and every path on the way to it is a
    directory. *)
Theorem make_csv_creates_directories x y filename data_dir w :
  (os_path_exists data_dir w).1 = Returned false →
  (make_csv x y filename data_dir w).1 = Returned () →
  let tree := files (make_csv x y filename data_dir w).2 in
  lookup_path (components data_dir) tree = Some (Dir ∅) ∧
  ∀ q, q `prefix_of` components data_dir →
       ∃ es, lookup_path q tree = Some (Dir es).
Proof.
  intros Hex. rewrite make_csv_run. cbv zeta. rewrite Hex.
  unfold os_makedirs.
  destruct (decide (data_dir = EmptyString)); [done|].
  destruct (mkdirs (components data_dir) (files w)) as [t|e'] eqn:Hmk; [|done].
  intros _. simpl.
  pose proof (mkdirs_target_empty _ _ _ Hmk) as Htarget.
  split; [done|]. intros q [k Hk]. rewrite Hk, lookup_path_app in Htarget.
  destruct (lookup_path q t) as [[content|es]|]; simpl in Htarget.
  - by destruct k.
  - by eexists.
  - done.
Qed.

Lemma make_csv_creates_directories_witness :
  let run := make_csv moon_points [1; 0] "train.csv" "data/moon" empty_world in
  ((os_path_exists "data/moon" empty_world).1 = Returned false ∧
   run.1 = Returned ()) ∧
  lookup_path (components "data/moon") (files run.2) = Some (Dir ∅) ∧
  ∀ q, q `prefix_of` components "data/moon" →
       ∃ es, lookup_path q (files run.2) = Some (Dir es).
Proof.
  cbv zeta. split; [by split|].
  exact (make_csv_creates_directories moon_points [1; 0] "train.csv" "data/moon"
           empty_world eq_refl eq_refl).
Defined.

(** Once a call of [make_csv] has returned, a later call for the same
    [data_dir], with any data and file name, returns as well, leaves the
    tree as it is and prints its own message. *)
Theorem make_csv_again x y filename x' y' filename' data_dir w :
  (make_csv x y filename data_dir w).1 = Returned () →
  let first := make_csv x y filename data_dir w in
  let second := make_csv x' y' filename' data_dir first.2 in
  second.1 = Returned () ∧
  files second.2 = files first.2 ∧
  stdout second.2 =
    stdout first.2 ++
    [Text ((("Path created: " +:+ data_dir) +:+ "/") +:+ filename')].
Proof.
  intros Hret. cbv zeta.
  assert (Hthere : (os_path_exists data_dir
                      (make_csv x y filename data_dir w).2).1 = Returned true).
  { revert Hret. rewrite make_csv_run. cbv zeta.
    destruct (os_path_exists data_dir w).1 as [[|]|e] eqn:Hex.
    - intros _. exact Hex.
    - unfold os_makedirs, os_path_exists.
      destruct (decide (data_dir = EmptyString)); [done|].
      destruct (mkdirs (components data_dir) (files w)) as [t|e'] eqn:Hmk;
        [|done].
      intros _. simpl. by rewrite (mkdirs_target_empty _ _ _ Hmk).
    - unfold os_path_exists in Hex. done. }
  rewrite (make_csv_run x' y' filename' data_dir). cbv zeta. by rewrite Hthere.
Qed.

Lemma make_csv_again_witness :
  let first := make_csv moon_points [1; 0] "train.csv" "data_moon" empty_world in
  let second := make_csv [] [] "test.csv" "data_moon" first.2 in
  first.1 = Returned () ∧
  second.1 = Returned () ∧
  files second.2 = files first.2 ∧
  stdout second.2 = stdout first.2 ++ [Text "Path created: data_moon/test.csv"].
Proof.
  cbv zeta. split; [reflexivity|].
  exact (make_csv_again moon_points [1; 0] "train.csv" [] [] "test.csv"
           "data_moon" empty_world eq_refl).
Defined.

(** The notebook's cell, run in any working directory: it returns, prints
    ['Path created: data_moon/train.csv'], and what is at
    [data_moon/train.csv] afterwards is what was there before, nothing if
    there was nothing. *)
Theorem create_train_csv_leaves_path X_train Y_train w es :
  files w = Dir es →
  let run := create_train_csv X_train Y_train w in
  run.1 = Returned () ∧
  stdout run.2 = stdout w ++ [Text "Path created: data_moon/train.csv"] ∧
  lookup_path ["data_moon"; "train.csv"] (files run.2) =
  lookup_path ["data_moon"; "train.csv"] (files w).
Proof.
  intros Hroot. cbv zeta. unfold create_train_csv. cbv zeta.
  rewrite make_csv_run. cbv zeta.
  unfold os_path_exists, os_makedirs. cbn [fst].
  change (components "data_moon") with ["data_moon"].
  destruct (decide ("data_moon" = EmptyString)) as [Heq|_]; [discriminate Heq|].
  rewrite Hroot. cbn [lookup_path mkdirs fresh_dirs].
  destruct (es !! "data_moon") as [child|] eqn:Hchild; cbn [mbind option_bind].
  - change (ends_in_name "data_moon") with true.
    destruct child as [content|es'];
      cbn [fst snd with_stdout stdout files]; rewrite ?Hroot, ?Hchild; done.
  - cbn [fst snd with_stdout stdout files lookup_path].
    rewrite lookup_insert_eq. cbn [mbind option_bind].
    rewrite lookup_empty. repeat split; done.
Qed.

Lemma create_train_csv_leaves_path_witness :
  let run := create_train_csv moon_points [1; 0] stocked_world in
  files stocked_world = Dir {["notes.txt" := File "moon"]} ∧
  run.1 = Returned () ∧
  stdout run.2 = stdout stocked_world ++ [Text "Path created: data_moon/train.csv"] ∧
  lookup_path ["data_moon"; "train.csv"] (files run.2) =
  lookup_path ["data_moon"; "train.csv"] (files stocked_world).
Proof.
  cbv zeta. split; [reflexivity|].
  exact (create_train_csv_leaves_path moon_points [1; 0] stocked_world _ eq_refl).
Defined.
